(** * ktlian-wears-backend: authentication, session and throttling core

    A shallow embedding of the TypeScript sources

      - src/lib/auth/jwt.ts          (token codec and, after the separator,
                                      the session module)
      - src/app/api/auth/admin.ts    (admin lookup)
      - src/app/api/auth/middleware.ts
      - src/app/api/auth/security.ts (second half: password module)
      - src/app/api/register/route.ts
      - unnamed/part_001             (withAdminAuth, RateLimiter)
      - src/lib/db/migrations.ts     (second part: the query helpers)

    Conventions.
      - A JavaScript string is a [string]: one [ascii] per code unit.
      - A JavaScript integer-valued number (time stamps in milliseconds,
        counters, HTTP status codes) is a [Z].
      - [async] functions run to completion; a rejected promise and a
        [throw] are both [Throw], a fulfilled promise and a [return] are
        both [Ret].
      - External collaborators (the jsonwebtoken, bcrypt and zod packages,
        the database driver, the Next.js cookie store, the clock) are the
        fields of one environment record [Env] that every function reads.
      - What a decoded token payload is at run time, which the cast
        [as JWTPayload] hides, is the argument [runtime] of
        [Jwt.getUserFromToken]. *)

From Stdlib Require Import ZArith String Ascii List Bool Lia.
From stdpp Require Import base option gmap strings list.

Set Warnings "-register-all".

Local Open Scope Z_scope.
Local Open Scope string_scope.

(* ===================================================================== *)
(** * Part I: the embedding                                              *)
(* ===================================================================== *)

(** ** JavaScript basics: exceptions, strings *)

Module Js.

(** What a [catch (error)] clause can receive. The two jsonwebtoken
    classes are kept apart because [verifyToken] dispatches on them with
    [instanceof]. *)
Inductive exn : Type :=
| TokenExpiredError                (* jwt.TokenExpiredError *)
| JsonWebTokenError (message : string)
| Error (message : string)         (* new Error(message) *)
| Failure (what : string).         (* any other thrown value *)

Inductive Exc (A : Type) : Type :=
| Ret (a : A)
| Throw (e : exn).
Arguments Ret {A} a.
Arguments Throw {A} e.

Definition bind {A B} (m : Exc A) (k : A -> Exc B) : Exc B :=
  match m with
  | Ret a => k a
  | Throw e => Throw e
  end.

(** [try { body } catch (error) { handler }] *)
Definition try_catch {A} (body : Exc A) (handler : exn -> Exc A) : Exc A :=
  match body with
  | Ret a => Ret a
  | Throw e => handler e
  end.

Definition returns {A} (m : Exc A) : Prop := exists a, m = Ret a.

(** [s1] occurs at the start of [s2]. *)
Fixpoint startsWith (s1 s2 : string) : bool :=
  match s1, s2 with
  | EmptyString, _ => true
  | String c1 r1, String c2 r2 => Ascii.eqb c1 c2 && startsWith r1 r2
  | String _ _, EmptyString => false
  end.

Fixpoint drop (n : nat) (s : string) : string :=
  match n, s with
  | O, _ => s
  | S n', String _ r => drop n' r
  | S _, EmptyString => EmptyString
  end.

(** [s.includes(pat)] *)
Fixpoint includes (s pat : string) : bool :=
  startsWith pat s ||
  match s with
  | EmptyString => false
  | String _ r => includes r pat
  end.

(** [s.replace(pat, rep)] for a string pattern: only the first
    occurrence of [pat], searched from the left, is replaced. (The [$]
    escapes of the replacement text are not modelled; the source only
    ever passes the empty replacement.) *)
Fixpoint replace (s pat rep : string) : string :=
  if startsWith pat s then rep ++ drop (String.length pat) s
  else match s with
       | EmptyString => EmptyString
       | String c r => String c (replace r pat rep)
       end.

(** Truthiness of a string value that may be [undefined]: the empty
    string is falsy. *)
Definition truthy (v : option string) : option string :=
  match v with
  | Some EmptyString => None
  | other => other
  end.

End Js.

Export Js.

Notation "'let*' x ':=' m 'in' k" := (bind m (fun x => k))
  (at level 10, x name, m at level 100, k at level 200).

(** ** Data shared by the modules *)

(** A parsed JSON value (request and response bodies). *)
Inductive json : Type :=
| JNull
| JBool (b : bool)
| JNum (n : Z)
| JStr (s : string)
| JArr (items : list json)
| JObj (fields : list (string * json)).

Definition JOpt (v : option string) : json :=
  match v with
  | Some s => JStr s
  | None => JNull
  end.

(** A row of the [users] table (src/lib/db/schema.ts). [role] is a
    [varchar] with default ['customer']. *)
Record User : Type := {
  id : string;
  u_email : string;
  password : string;
  firstName : option string;
  lastName : option string;
  phone : option string;
  role : string;
  createdAt : Z;
  updatedAt : Z
}.

(** [interface AdminUser extends User]: the narrowing of [role] is a
    compile-time assertion only ([user as AdminUser]). *)
Definition AdminUser : Type := User.

(** The argument of [createUser]. *)
Record NewUser : Type := {
  n_email : string;
  n_password : string;
  n_firstName : option string;
  n_lastName : option string
}.

(** [interface JWTPayload] *)
Record JWTPayload : Type := {
  userId : string;
  email : string;
  iat : option Z;
  exp : option Z
}.

(** The object handed to [jwt.sign]. *)
Record Claims : Type := {
  c_userId : string;
  c_email : string
}.

Record SignOptions : Type := {
  expiresIn : string;
  issuer : string;
  audience : string
}.

Record VerifyOptions : Type := {
  v_issuer : string;
  v_audience : string
}.

(** The outcome of zod's [registerSchema.safeParse]. *)
Record RegisterInput : Type := {
  r_email : string;
  r_password : string;
  r_firstName : option string;
  r_lastName : option string
}.

Inductive SafeParseResult : Type :=
| ParseSuccess (data : RegisterInput)
| ParseFailure (issues : json).

(** A cookie as written by [response.cookies.set(name, value, options)]. *)
Record Cookie : Type := {
  value : string;
  httpOnly : bool;
  secure : bool;
  sameSite : string;
  maxAge : Z;
  path : string
}.

Record NextRequest : Type := {
  req_cookies : gmap string string;   (* request.cookies: name -> value *)
  req_headers : gmap string string;
  req_json : Exc json                 (* await request.json() *)
}.

Record NextResponse : Type := {
  status : Z;
  body : json;
  res_cookies : gmap string Cookie    (* response.cookies *)
}.

(** [NextResponse.json(body, { status })] *)
Definition NextResponse_json (b : json) (st : Z) : NextResponse :=
  {| status := st; body := b; res_cookies := ∅ |}.

(** [response.cookies.set(name, value, options)] *)
Definition cookies_set (r : NextResponse) (name : string) (c : Cookie)
  : NextResponse :=
  {| status := status r; body := body r;
     res_cookies := <[name := c]> (res_cookies r) |}.

(** What a browser sends back: the name and value of every cookie it was
    given. *)
Definition cookie_jar (r : NextResponse) : gmap string string :=
  value <$> res_cookies r.

(** The world outside the repository. The two jsonwebtoken entry points
    read the clock, so they receive [Date.now()] explicitly. *)
Record Env : Type := {
  process_env_JWT_SECRET : option string;
  process_env_NODE_ENV : option string;
  Date_now : Z;
  jwt_sign : Z -> Claims -> string -> SignOptions -> Exc string;
  jwt_verify : Z -> string -> string -> VerifyOptions -> Exc JWTPayload;
  (* db.select().from(users).where(eq(users.id, _)) *)
  select_users_where_id : string -> Exc (list User);
  (* db.select().from(users).where(eq(users.email, _)) *)
  select_users_where_email : string -> Exc (list User);
  (* db.insert(users).values(_).returning() *)
  insert_users_returning : NewUser -> Exc (list User);
  bcrypt_hash : string -> Z -> Exc string;
  registerSchema_safeParse : json -> SafeParseResult;
  (* cookies() of next/headers *)
  cookies : Exc (gmap string string)
}.

(** The same world at a later reading of the clock. *)
Definition at_time (e : Env) (t : Z) : Env :=
  {| process_env_JWT_SECRET := process_env_JWT_SECRET e;
     process_env_NODE_ENV := process_env_NODE_ENV e;
     Date_now := t;
     jwt_sign := jwt_sign e;
     jwt_verify := jwt_verify e;
     select_users_where_id := select_users_where_id e;
     select_users_where_email := select_users_where_email e;
     insert_users_returning := insert_users_returning e;
     bcrypt_hash := bcrypt_hash e;
     registerSchema_safeParse := registerSchema_safeParse e;
     cookies := cookies e |}.

(** ** src/lib/db/migrations.ts, query helpers *)

Module Queries.

(** [const [user] = await ...; return user;] *)
Definition getUserById (e : Env) (userId : string) : Exc (option User) :=
  let* rows := select_users_where_id e userId in
  Ret (head rows).

Definition getUserByEmail (e : Env) (email : string) : Exc (option User) :=
  let* rows := select_users_where_email e email in
  Ret (head rows).

Definition createUser (e : Env) (userData : NewUser) : Exc (option User) :=
  let* rows := insert_users_returning e userData in
  Ret (head rows).

(** [user?.role === 'admin' || user?.role === 'super_admin'] *)
Definition isUserAdmin (e : Env) (userId : string) : Exc bool :=
  let* rows := select_users_where_id e userId in
  Ret match head rows with
      | Some user => String.eqb (role user) "admin"
                     || String.eqb (role user) "super_admin"
      | None => false
      end.

End Queries.

(** ** The jsonwebtoken package, by its documented behaviour *)

Module Jsonwebtoken.

(** [Math.floor(Date.now() / 1000)], the clock of the package. *)
Definition seconds (ms : Z) : Z := ms / 1000.

(** The two values of [expiresIn] the repository passes, in seconds. *)
Definition timespan (expiresIn : string) : option Z :=
  if String.eqb expiresIn "7d" then Some (7 * 24 * 60 * 60)
  else if String.eqb expiresIn "30d" then Some (30 * 24 * 60 * 60)
  else None.

(** [jwt.sign] succeeds when given a secret and a readable life time. *)
Definition signs (e : Env) : Prop :=
  forall now claims secret options span,
    secret <> "" ->
    timespan (expiresIn options) = Some span ->
    exists tok, jwt_sign e now claims secret options = Ret tok.

(** [jwt.verify] accepts a token of [jwt.sign] under the same secret,
    issuer and audience for as long as the clock is before its [exp],
    and hands back the signed claims. *)
Definition verifies_what_it_signs (e : Env) : Prop :=
  forall now now' claims secret options span tok,
    jwt_sign e now claims secret options = Ret tok ->
    timespan (expiresIn options) = Some span ->
    seconds now' < seconds now + span ->
    exists decoded,
      jwt_verify e now' tok secret
        {| v_issuer := issuer options; v_audience := audience options |}
      = Ret decoded /\
      userId decoded = c_userId claims /\
      email decoded = c_email claims.

End Jsonwebtoken.

(** ** src/lib/auth/jwt.ts, first part: the token codec *)

Module Jwt.

(** [process.env.JWT_SECRET || 'default-secret-key-change-in-production'] *)
Definition JWT_SECRET (e : Env) : string :=
  match truthy (process_env_JWT_SECRET e) with
  | Some s => s
  | None => "default-secret-key-change-in-production"
  end.

Definition generateToken (e : Env) (payload : Claims) : Exc string :=
  try_catch
    (let options := {| expiresIn := "7d";
                       issuer := "ktlian-wears";
                       audience := "ktlian-wears-users" |} in
     let* token := jwt_sign e (Date_now e) payload (JWT_SECRET e) options in
     Ret token)
    (fun _ => Throw (Error "Failed to generate token")).

Definition verifyToken (e : Env) (token : string) : Exc JWTPayload :=
  try_catch
    (let* decoded :=
       jwt_verify e (Date_now e) token (JWT_SECRET e)
         {| v_issuer := "ktlian-wears";
            v_audience := "ktlian-wears-users" |} in
     Ret decoded)
    (fun error =>
       match error with
       | TokenExpiredError => Throw (Error "Token has expired")
       | JsonWebTokenError _ => Throw (Error "Invalid token")
       | _ => Throw (Error "Token verification failed")
       end).

(** The body in force: the real decoder is commented out. *)
Definition decodeToken (token : string) : option JWTPayload :=
  let userId := replace token "temp-token-" "" in
  Some {| userId := userId;
          email := "temp@example.com";
          iat := None;
          exp := None |}.

Definition isTokenExpired (_token : string) : bool := false.

(** A [Date] is its time value in milliseconds. [!decoded.exp] holds for
    a missing [exp] and for [0]. *)
Definition getTokenExpiration (token : string) : Exc (option Z) :=
  try_catch
    (match decodeToken token with
     | None => Ret None
     | Some decoded =>
         match exp decoded with
         | None => Ret None
         | Some 0 => Ret None
         | Some x => Ret (Some (x * 1000))
         end
     end)
    (fun _error => Ret None).

Record UserFromToken : Type := {
  success : bool;
  uft_userId : option string;
  error : option string
}.

(** The cast [as JWTPayload] in [verifyToken] checks nothing: what
    [jwt.verify] decodes is whatever was signed under the secret. At run
    time the decoded value is falsy, or it is truthy and [typeof] of its
    [userId] property is one of the type names of the language, 'string'
    for every token this module signs. *)
Inductive Runtime : Type :=
| Falsy
| Truthy (typeof_userId : string).

(** [!payload || typeof payload.userId !== 'string'] *)
Definition invalid_payload (r : Runtime) : bool :=
  match r with
  | Falsy => true
  | Truthy typeof_userId => negb (String.eqb typeof_userId "string")
  end.

(** [runtime] tells what the value behind a payload is at run time. *)
Definition getUserFromToken (e : Env) (runtime : JWTPayload -> Runtime)
  (request : NextRequest) : Exc UserFromToken :=
  try_catch
    (match truthy (req_cookies request !! "auth_token") with
     | None =>
         Ret {| success := false; uft_userId := None;
                error := Some "No authentication token" |}
     | Some token =>
         let* payload := verifyToken e token in
         if invalid_payload (runtime payload)
         then Ret {| success := false; uft_userId := None;
                     error := Some "Invalid authentication token" |}
         else Ret {| success := true; uft_userId := Some (userId payload);
                     error := None |}
     end)
    (fun _ =>
       Ret {| success := false; uft_userId := None;
              error := Some "Authentication error" |}).

End Jwt.

(** ** src/lib/auth/jwt.ts, second part: the session module *)

Module Session.

Definition SESSION_COOKIE_NAME : string := "auth-session".

(** The object [{ token }]. *)
Record SessionToken : Type := { token : string }.

(** The object [{ user }]. *)
Record SessionData : Type := { user : User }.

Definition createUserSession (e : Env) (u : User) : Exc SessionToken :=
  try_catch
    (let* token :=
       Jwt.generateToken e {| c_userId := id u; c_email := u_email u |} in
     Ret {| token := token |})
    (fun _ => Throw (Error "Failed to create session")).

Definition validateSession (e : Env) (token : string)
  : Exc (option SessionData) :=
  try_catch
    (let* jwtPayload := Jwt.verifyToken e token in
     let* user := Queries.getUserById e (userId jwtPayload) in
     match user with
     | None => Ret None
     | Some user => Ret (Some {| user := user |})
     end)
    (fun _ => Ret None).

(** [token?.value || null] *)
Definition getSessionToken (e : Env) : Exc (option string) :=
  try_catch
    (let* cookieStore := cookies e in
     Ret (truthy (cookieStore !! SESSION_COOKIE_NAME)))
    (fun _ => Ret None).

(** [sessionData?.user || null] *)
Definition getCurrentUser (e : Env) : Exc (option User) :=
  try_catch
    (let* token := getSessionToken e in
     match token with
     | None => Ret None
     | Some token =>
         let* sessionData := validateSession e token in
         Ret (user <$> sessionData)
     end)
    (fun _ => Ret None).

Definition refreshSession (e : Env) (token : string)
  : Exc (option SessionToken) :=
  try_catch
    (let* sessionData := validateSession e token in
     match sessionData with
     | None => Ret None
     | Some sd =>
         let* newSessionData := createUserSession e (user sd) in
         Ret (Some newSessionData)
     end)
    (fun _ => Ret None).

End Session.

(** ** src/app/api/auth/admin.ts *)

Module Admin.

(** [request] is optional: without it the token is read through
    [cookies()]. *)
Definition getCurrentUser (e : Env) (request : option NextRequest)
  : Exc (option User) :=
  (* the guard [!payload || typeof payload.userId !== 'string'] answers
     null; the payloads followed here are those with a string [userId],
     as every token signed by [generateToken] has *)
  try_catch
    (let* token :=
       match request with
       | Some request => Ret (req_cookies request !! "auth_token")
       | None =>
           let* cookieStore := cookies e in
           Ret (cookieStore !! "auth_token")
       end in
     match truthy token with
     | None => Ret None
     | Some token =>
         let* payload := Jwt.verifyToken e token in
         let* user := Queries.getUserById e (userId payload) in
         Ret user
     end)
    (fun _ => Ret None).

Definition getCurrentAdminUser (e : Env) (request : option NextRequest)
  : Exc (option AdminUser) :=
  try_catch
    (let* user := getCurrentUser e request in
     match user with
     | None => Ret None
     | Some user =>
         let* userIsAdmin := Queries.isUserAdmin e (id user) in
         if userIsAdmin then Ret (Some user) else Ret None
     end)
    (fun _ => Ret None).

Definition requireAdmin (e : Env) (request : NextRequest) : Exc AdminUser :=
  let* adminUser := getCurrentAdminUser e (Some request) in
  match adminUser with
  | None => Throw (Error "Admin access required")
  | Some adminUser => Ret adminUser
  end.

End Admin.

(** ** unnamed/part_001, first document: the admin route wrapper *)

Module AdminMiddleware.

Definition Handler : Type := NextRequest -> AdminUser -> Exc NextResponse.

Definition admin_auth_required : NextResponse :=
  NextResponse_json
    (JObj [("success", JBool false);
           ("error", JStr "Admin authentication required");
           ("code", JStr "ADMIN_AUTH_REQUIRED")])
    401.

Definition auth_error : NextResponse :=
  NextResponse_json
    (JObj [("success", JBool false);
           ("error", JStr "Authentication error");
           ("code", JStr "AUTH_ERROR")])
    500.

Definition withAdminAuth (e : Env) (handler : Handler)
  (request : NextRequest) : Exc NextResponse :=
  try_catch
    (let* adminUser := Admin.getCurrentAdminUser e (Some request) in
     match adminUser with
     | None => Ret admin_auth_required
     | Some adminUser => handler request adminUser
     end)
    (fun _ => Ret auth_error).

Definition requireAdminPermission (e : Env) (permission : string)
  (handler : Handler) : NextRequest -> Exc NextResponse :=
  withAdminAuth e
    (fun request adminUser =>
       let hasPermission :=
         String.eqb (role adminUser) "admin"
         || String.eqb (role adminUser) "super_admin" in
       if negb hasPermission then
         Ret (NextResponse_json
                (JObj [("success", JBool false);
                       ("error", JStr "Insufficient permissions");
                       ("code", JStr "INSUFFICIENT_PERMISSIONS");
                       ("required", JStr permission)])
                403)
       else handler request adminUser).

End AdminMiddleware.

(** ** src/app/api/auth/middleware.ts *)

Module Middleware.

(** The module calls [getCurrentUser] of ./session; the gates are stated
    over the outcome of that call, [Session.getCurrentUser e] in the
    running system. [None] is "continue". *)
Definition requireAuth (getCurrentUser : Exc (option User))
  : Exc (option NextResponse) :=
  try_catch
    (let* user := getCurrentUser in
     match user with
     | None =>
         Ret (Some (NextResponse_json
                      (JObj [("error", JStr "Authentication required")])
                      401))
     | Some _ => Ret None
     end)
    (fun _ =>
       Ret (Some (NextResponse_json
                    (JObj [("error", JStr "Authentication failed")])
                    401))).

Definition requireGuest (getCurrentUser : Exc (option User))
  : Exc (option NextResponse) :=
  try_catch
    (let* user := getCurrentUser in
     match user with
     | Some _ =>
         Ret (Some (NextResponse_json
                      (JObj [("error", JStr "Already authenticated")])
                      400))
     | None => Ret None
     end)
    (fun _ => Ret None).

End Middleware.

(** ** src/app/api/auth/security.ts, second document: the password module *)

Module Password.

Definition quote : ascii := "034"%char.

(** [/[...]/.test(s)] for a character class. *)
Fixpoint test_class (cls : ascii -> bool) (s : string) : bool :=
  match s with
  | EmptyString => false
  | String c r => cls c || test_class cls r
  end.

Definition between (lo hi c : ascii) : bool :=
  (nat_of_ascii lo <=? nat_of_ascii c)%nat
  && (nat_of_ascii c <=? nat_of_ascii hi)%nat.

Definition lower : ascii -> bool := between "a" "z".
Definition upper : ascii -> bool := between "A" "Z".
Definition digit : ascii -> bool := between "0" "9".

Fixpoint mem_char (c : ascii) (set : string) : bool :=
  match set with
  | EmptyString => false
  | String d r => Ascii.eqb c d || mem_char c r
  end.

(** The bracket class of the special-character rule; its fourteenth
    member is the double quote. *)
Definition special_set : string :=
  "!@#$%^&*(),.?" ++ String quote ":{}|<>".
Definition special (c : ascii) : bool := mem_char c special_set.

(** [.] matches any code unit but a line terminator. *)
Definition dot (c : ascii) : bool :=
  negb (Ascii.eqb c "010"%char || Ascii.eqb c "013"%char).

(** [/(.)\1{2,}/.test(s)]: some character three times in a row. *)
Fixpoint repeated (s : string) : bool :=
  match s with
  | String a ((String b (String c _)) as r) =>
      (dot a && Ascii.eqb a b && Ascii.eqb b c) || repeated r
  | _ => false
  end.

Definition toLowerCase_char (c : ascii) : ascii :=
  if upper c then ascii_of_nat (nat_of_ascii c + 32) else c.

Fixpoint toLowerCase (s : string) : string :=
  match s with
  | EmptyString => EmptyString
  | String c r => String (toLowerCase_char c) (toLowerCase r)
  end.

Definition sequential_runs : list string :=
  ["123"; "234"; "345"; "456"; "567"; "678"; "789"; "890";
   "abc"; "bcd"; "cde"; "def"; "efg"; "fgh"; "ghi"; "hij"; "ijk"; "jkl";
   "klm"; "lmn"; "mno"; "nop"; "opq"; "pqr"; "qrs"; "rst"; "stu"; "tuv";
   "uvw"; "vwx"; "wxy"; "xyz"].

(** [/123|234|...|xyz/i.test(s)]: the alternatives are lower-case
    literals, so ignoring case is matching against the lower-cased
    subject. *)
Definition sequential (s : string) : bool :=
  existsb (includes (toLowerCase s)) sequential_runs.

Record Strength : Type := {
  isValid : bool;
  errors : list string
}.

(** [if (cond) errors.push(msg)] *)
Definition push_if (cond : bool) (msg : string) (errors : list string)
  : list string :=
  if cond then errors ++ [msg] else errors.

Definition validatePasswordStrength (password : string) : Strength :=
  let len := Z.of_nat (String.length password) in
  let errors : list string := [] in
  let errors := push_if (len <? 8)%Z
    "Password must be at least 8 characters long" errors in
  let errors := push_if (len >? 128)%Z
    "Password must be less than 128 characters long" errors in
  let errors := push_if (negb (test_class lower password))
    "Password must contain at least one lowercase letter" errors in
  let errors := push_if (negb (test_class upper password))
    "Password must contain at least one uppercase letter" errors in
  let errors := push_if (negb (test_class digit password))
    "Password must contain at least one number" errors in
  let errors := push_if (negb (test_class special password))
    ("Password must contain at least one special character (" ++
     special_set ++ ")") errors in
  let errors := push_if (repeated password)
    "Password should not contain repeated characters" errors in
  let errors := push_if (sequential password)
    "Password should not contain sequential characters" errors in
  {| isValid := (List.length errors =? 0)%nat; errors := errors |}.

Definition hashPassword (e : Env) (password : string) : Exc string :=
  try_catch
    (let saltRounds := 12 in
     let* hashedPassword := bcrypt_hash e password saltRounds in
     Ret hashedPassword)
    (fun _ => Throw (Error "Failed to hash password")).

End Password.

(** ** src/app/api/register/route.ts *)

Module Register.

(** [error instanceof Error ? error.message : undefined] *)
Definition Error_message (err : exn) : option string :=
  match err with
  | TokenExpiredError => Some "jwt expired"
  | JsonWebTokenError m => Some m
  | Error m => Some m
  | Failure _ => None
  end.

Definition session_cookie (e : Env) (token : string) : Cookie :=
  {| value := token;
     httpOnly := true;
     secure := match process_env_NODE_ENV e with
               | Some v => String.eqb v "production"
               | None => false
               end;
     sameSite := "lax";
     maxAge := 7 * 24 * 60 * 60;
     path := "/" |}.

Definition POST (e : Env) (request : NextRequest) : Exc NextResponse :=
  try_catch
    (let* body := req_json request in
     match registerSchema_safeParse e body with
     | ParseFailure issues =>
         Ret (NextResponse_json
                (JObj [("error", JStr "Validation failed");
                       ("details", issues)])
                400)
     | ParseSuccess data =>
         let* existingUser := Queries.getUserByEmail e (r_email data) in
         match existingUser with
         | Some _ =>
             Ret (NextResponse_json
                    (JObj [("error",
                            JStr "User with this email already exists")])
                    409)
         | None =>
             let passwordValidation :=
               Password.validatePasswordStrength (r_password data) in
             if negb (Password.isValid passwordValidation) then
               Ret (NextResponse_json
                      (JObj [("error",
                              JStr "Password does not meet security requirements");
                             ("details",
                              JArr (map JStr
                                      (Password.errors passwordValidation)))])
                      400)
             else
               let* hashedPassword :=
                 Password.hashPassword e (r_password data) in
               let* newUser :=
                 Queries.createUser e
                   {| n_email := r_email data;
                      n_password := hashedPassword;
                      n_firstName := r_firstName data;
                      n_lastName := r_lastName data |} in
               (* an [undefined] row makes [user.id] fail inside
                  createUserSession's own try block *)
               match newUser with
               | None => Throw (Error "Failed to create session")
               | Some newUser =>
                   let* session := Session.createUserSession e newUser in
                   let token := Session.token session in
                   let userResponse :=
                     JObj [("id", JStr (id newUser));
                           ("email", JStr (u_email newUser));
                           ("firstName", JOpt (firstName newUser));
                           ("lastName", JOpt (lastName newUser));
                           ("createdAt", JNum (createdAt newUser))] in
                   let response :=
                     NextResponse_json
                       (JObj [("message",
                               JStr "User registered successfully");
                              ("user", userResponse)])
                       201 in
                   Ret (cookies_set response "auth-session"
                          (session_cookie e token))
               end
         end
     end)
    (fun err =>
       match Error_message err with
       | Some message =>
           if includes message "duplicate key" then
             Ret (NextResponse_json
                    (JObj [("error",
                            JStr "User with this email already exists")])
                    409)
           else
             Ret (NextResponse_json
                    (JObj [("error", JStr "Internal server error")]) 500)
       | None =>
           Ret (NextResponse_json
                  (JObj [("error", JStr "Internal server error")]) 500)
       end).

End Register.

(** ** unnamed/part_001, third document: the rate limiter *)

Module RateLimit.

Record RateLimitConfig : Type := {
  windowMs : Z;
  maxRequests : Z
}.

(** A value of [RateLimitStore]. *)
Record Entry : Type := {
  count : Z;
  resetTime : Z
}.

(** [private store: RateLimitStore = {}] is an ordinary object: its own
    properties are the entries the limiter has written, and a property
    read that finds no own property continues in [Object.prototype]. *)
Definition Object_prototype_keys : list string :=
  ["constructor"; "__proto__"; "hasOwnProperty"; "isPrototypeOf";
   "propertyIsEnumerable"; "toLocaleString"; "toString"; "valueOf";
   "__defineGetter__"; "__defineSetter__";
   "__lookupGetter__"; "__lookupSetter__"].

Definition inherited (key : string) : bool :=
  existsb (String.eqb key) Object_prototype_keys.

(** The result of reading [this.store[identifier]]. *)
Inductive Slot : Type :=
| Own (r : Entry)      (* an entry written by the limiter *)
| Inherited            (* a member of Object.prototype: truthy, and its
                          [count] and [resetTime] are not numbers *)
| Missing.             (* undefined *)

Definition get (store : gmap string Entry) (identifier : string) : Slot :=
  match store !! identifier with
  | Some r => Own r
  | None => if inherited identifier then Inherited else Missing
  end.

(** A number-typed field of the returned object; on an inherited member
    the arithmetic yields [NaN] and the read of [resetTime] yields
    [undefined]. *)
Inductive Num : Type :=
| Number (n : Z)
| NaN
| Undefined.

Record Verdict : Type := {
  allowed : bool;
  remaining : Num;
  v_resetTime : Num
}.

(** [isAllowed(identifier)], with [now] the value of [Date.now()] read at
    entry; returns the verdict and the store left behind. Comparisons
    with [undefined] are false, so an inherited member is neither
    expired nor over the limit; [count++] on it writes to that member,
    not to the store. *)
Definition isAllowed (config : RateLimitConfig) (now : Z)
  (identifier : string) (store : gmap string Entry)
  : Verdict * gmap string Entry :=
  let record := get store identifier in
  let store :=
    match record with
    | Own r => if now >? resetTime r then delete identifier store
               else store
    | _ => store
    end in
  match get store identifier with
  | Missing =>
      ({| allowed := true;
          remaining := Number (maxRequests config - 1);
          v_resetTime := Number (now + windowMs config) |},
       <[identifier := {| count := 1;
                          resetTime := now + windowMs config |}]> store)
  | Own r =>
      if count r >=? maxRequests config then
        ({| allowed := false;
            remaining := Number 0;
            v_resetTime := Number (resetTime r) |},
         store)
      else
        let r' := {| count := count r + 1; resetTime := resetTime r |} in
        ({| allowed := true;
            remaining := Number (maxRequests config - count r');
            v_resetTime := Number (resetTime r') |},
         <[identifier := r']> store)
  | Inherited =>
      ({| allowed := true; remaining := NaN; v_resetTime := Undefined |},
       store)
  end.

(** [cleanup()]: [Object.keys] lists the own properties only. *)
Definition cleanup (now : Z) (store : gmap string Entry)
  : gmap string Entry :=
  filter (fun kv => ¬ (now > resetTime kv.2)) store.

Definition authRateLimiter : RateLimitConfig :=
  {| windowMs := 15 * 60 * 1000; maxRequests := 5 |}.

Definition generalRateLimiter : RateLimitConfig :=
  {| windowMs := 60 * 1000; maxRequests := 100 |}.

(** [createRateLimitMiddleware(limiter)(identifier)] *)
Definition rateLimitMiddleware (config : RateLimitConfig) (now : Z)
  (identifier : string) (store : gmap string Entry)
  : Exc Verdict * gmap string Entry :=
  let '(result, store) := isAllowed config now identifier store in
  if negb (allowed result) then
    (Throw (Error "Rate limit exceeded"), store)
  else (Ret result, store).

(** [s.split(' ')] *)
Fixpoint split_space (s : string) : list string :=
  match s with
  | EmptyString => [EmptyString]
  | String c r =>
      if Ascii.eqb c " " then EmptyString :: split_space r
      else match split_space r with
           | h :: t => String c h :: t
           | [] => [String c EmptyString]
           end
  end.

(** [parts.join(' ')] *)
Fixpoint join_space (parts : list string) : string :=
  match parts with
  | [] => EmptyString
  | [x] => x
  | x :: rest => x ++ " " ++ join_space rest
  end.

(** [getClientIdentifier(request)]; header names are held in lower
    case. *)
Definition getClientIdentifier (request : NextRequest) : string :=
  let userAgent :=
    match truthy (req_headers request !! "user-agent") with
    | Some ua => ua
    | None => "unknown"
    end in
  join_space (firstn 3 (split_space userAgent)).

(** One call on a limiter. *)
Inductive Call : Type :=
| CallIsAllowed (now : Z) (identifier : string)
| CallCleanup (now : Z).

Definition step (config : RateLimitConfig) (store : gmap string Entry)
  (c : Call) : gmap string Entry :=
  match c with
  | CallIsAllowed now identifier =>
      snd (isAllowed config now identifier store)
  | CallCleanup now => cleanup now store
  end.

(** The store after a sequence of calls on a new limiter. *)
Definition run (config : RateLimitConfig) (calls : list Call)
  : gmap string Entry :=
  fold_left (step config) calls ∅.

(** The verdicts of consecutive [isAllowed(identifier)] calls made at
    the given times, and the store they leave. *)
Fixpoint calls_at (config : RateLimitConfig) (identifier : string)
  (times : list Z) (store : gmap string Entry)
  : list Verdict * gmap string Entry :=
  match times with
  | [] => ([], store)
  | now :: rest =>
      let '(v, store') := isAllowed config now identifier store in
      let '(vs, store'') := calls_at config identifier rest store' in
      (v :: vs, store'')
  end.

End RateLimit.

(** ** A small concrete world

    A stand-in for the external packages, used to run the embedding on
    concrete requests: the token of a payload is its user id, preceded by
    the length of that id in unary, followed by the e-mail; the users
    table holds one customer and one administrator. *)

Module Sample.

Fixpoint take (n : nat) (s : string) : string :=
  match n, s with
  | S n', String c r => String c (take n' r)
  | _, _ => EmptyString
  end.

Fixpoint unary (n : nat) (rest : string) : string :=
  match n with
  | O => String "0" rest
  | S n' => String "1" (unary n' rest)
  end.

Fixpoint read_unary (s : string) : option (nat * string) :=
  match s with
  | EmptyString => None
  | String c r =>
      if Ascii.eqb c "0" then Some (O, r)
      else if Ascii.eqb c "1" then
             match read_unary r with
             | Some (n, r') => Some (S n, r')
             | None => None
             end
           else None
  end.

Definition sign (_now : Z) (c : Claims) (_secret : string)
  (_options : SignOptions) : Exc string :=
  Ret (unary (String.length (c_userId c)) (c_userId c ++ c_email c)).

Definition verify (_now : Z) (token _secret : string)
  (_options : VerifyOptions) : Exc JWTPayload :=
  match read_unary token with
  | Some (n, r) =>
      Ret {| userId := take n r; email := drop n r;
             iat := None; exp := None |}
  | None => Throw (JsonWebTokenError "jwt malformed")
  end.

Definition alice : User :=
  {| id := "u1"; u_email := "a@b.com"; password := "$2a$12$hash";
     firstName := Some "Alice"; lastName := None; phone := None;
     role := "customer"; createdAt := 0; updatedAt := 0 |}.

Definition root : User :=
  {| id := "u2"; u_email := "root@b.com"; password := "$2a$12$hash";
     firstName := None; lastName := None; phone := None;
     role := "admin"; createdAt := 0; updatedAt := 0 |}.

Definition users : list User := [alice; root].

Definition world : Env :=
  {| process_env_JWT_SECRET := Some "s3cret";
     process_env_NODE_ENV := Some "production";
     Date_now := 1700000000000;
     jwt_sign := sign;
     jwt_verify := verify;
     select_users_where_id :=
       fun k => Ret (List.filter (fun u => String.eqb (id u) k) users);
     select_users_where_email :=
       fun k => Ret (List.filter (fun u => String.eqb (u_email u) k) users);
     insert_users_returning :=
       fun n =>
         Ret [{| id := "u3"; u_email := n_email n;
                 password := n_password n;
                 firstName := n_firstName n; lastName := n_lastName n;
                 phone := None; role := "customer";
                 createdAt := 1700000000000;
                 updatedAt := 1700000000000 |}];
     bcrypt_hash := fun pw _ => Ret ("$2a$12$" ++ pw);
     registerSchema_safeParse :=
       fun _ =>
         ParseSuccess {| r_email := "new@b.com";
                         r_password := "ValidP@ss1";
                         r_firstName := None; r_lastName := None |};
     cookies := Ret ∅ |}.

(** Alice's token, as [generateToken] mints it in [world]. *)
Definition alice_token : string := "110u1a@b.com".
Definition root_token : string := "110u2root@b.com".

Definition request_with (name v : string) : NextRequest :=
  {| req_cookies := {[ name := v ]};
     req_headers := ∅;
     req_json := Ret JNull |}.

Definition bare_request : NextRequest :=
  {| req_cookies := ∅; req_headers := ∅; req_json := Ret JNull |}.

(** An admin-only endpoint that answers 200. *)
Definition dashboard : AdminMiddleware.Handler :=
  fun _ adminUser =>
    Ret (NextResponse_json
           (JObj [("success", JBool true);
                  ("data", JStr (u_email adminUser))])
           200).

End Sample.

(** ** Vocabulary of the properties *)

Module Vocabulary.
Import Password RateLimit.

(** The reading of the specification's words "[t] with the prefix
    removed": a token that starts with the prefix loses it, any other
    token is unchanged. *)
Definition without_prefix (prefix t : string) : string :=
  if startsWith prefix t then drop (String.length prefix) t else t.

(** An error message speaks of common words when it contains "common",
    in whatever case. *)
Definition mentions_common_word (msg : string) : bool :=
  includes (toLowerCase msg) "common".

Definition rules (password : string) : list bool :=
  let len := Z.of_nat (String.length password) in
  [(len <? 8)%Z; (len >? 128)%Z;
   negb (test_class lower password); negb (test_class upper password);
   negb (test_class digit password); negb (test_class special password);
   repeated password; sequential password].

Definition failing (rs : list bool) : list bool :=
  List.filter (fun b : bool => b) rs.

Definition no_token : Jwt.UserFromToken :=
  {| Jwt.success := false; Jwt.uft_userId := None;
     Jwt.error := Some "No authentication token" |}.

(** Every entry of the store is within the limit. *)
Definition bounded (config : RateLimitConfig) (store : gmap string Entry)
  : Prop :=
  forall k r, store !! k = Some r -> count r <= maxRequests config.

End Vocabulary.

(** ** src/lib/auth/jwt.ts, first part: refresh tokens *)

Module JwtRefresh.

(** [{ ...payload, type: 'refresh' }] *)
Record RefreshClaims : Type := {
  rc_userId : string;
  rc_email : string;
  rc_type : string
}.

(** [JWTPayload & { type?: string }] *)
Record TypedPayload : Type := {
  tp_payload : JWTPayload;
  tp_type : option string
}.

(** [jwt.sign] and [jwt.verify] as used with the [type] claim. *)
Record Library : Type := {
  sign : Z -> RefreshClaims -> string -> SignOptions -> Exc string;
  verify : Z -> string -> string -> VerifyOptions -> Exc TypedPayload
}.

Definition generateRefreshToken (lib : Library) (e : Env) (payload : Claims)
  : Exc string :=
  try_catch
    (let* token :=
       sign lib (Date_now e)
         {| rc_userId := c_userId payload; rc_email := c_email payload;
            rc_type := "refresh" |}
         (Jwt.JWT_SECRET e)
         {| expiresIn := "30d";
            issuer := "ktlian-wears";
            audience := "ktlian-wears-users" |} in
     Ret token)
    (fun _ => Throw (Error "Failed to generate refresh token")).

(** The [throw] of the type test sits inside the [try] block, so the
    [catch] clause receives it like any other error. *)
Definition verifyRefreshToken (lib : Library) (e : Env) (token : string)
  : Exc TypedPayload :=
  try_catch
    (let* decoded :=
       verify lib (Date_now e) token (Jwt.JWT_SECRET e)
         {| v_issuer := "ktlian-wears";
            v_audience := "ktlian-wears-users" |} in
     match tp_type decoded with
     | Some "refresh" => Ret decoded
     | _ => Throw (Error "Invalid refresh token")
     end)
    (fun error =>
       match error with
       | TokenExpiredError => Throw (Error "Refresh token has expired")
       | JsonWebTokenError _ => Throw (Error "Invalid refresh token")
       | _ => Throw (Error "Refresh token verification failed")
       end).

End JwtRefresh.

(** ** src/lib/auth/jwt.ts, second part: the rest of the session module *)

Module SessionRest.
Import Session.

(** The object [{ user, session: { token } }]. *)
Record SessionWithUser : Type := {
  swu_user : User;
  swu_session : SessionToken
}.

Definition getSessionWithUser (e : Env) (t : string)
  : Exc (option SessionWithUser) :=
  try_catch
    (let* sessionData := validateSession e t in
     match sessionData with
     | None => Ret None
     | Some sd =>
         Ret (Some {| swu_user := user sd;
                      swu_session := {| token := t |} |})
     end)
    (fun _ => Ret None).

(** Nothing is stored on the server: there is nothing to invalidate. *)
Definition invalidateUserSessions (_userId : string) : Exc bool :=
  try_catch (Ret true) (fun _ => Ret false).

(** [user !== null]; the function has no try block of its own. *)
Definition isAuthenticated (e : Env) : Exc bool :=
  let* user := getCurrentUser e in
  Ret match user with
      | Some _ => true
      | None => false
      end.

End SessionRest.

(** ** src/app/api/auth/admin.ts, the rest *)

Module AdminRest.
Import Admin.

Definition isCurrentUserAdmin (e : Env) (request : option NextRequest)
  : Exc bool :=
  try_catch
    (let* adminUser := getCurrentAdminUser e request in
     Ret match adminUser with
         | Some _ => true
         | None => false
         end)
    (fun _ => Ret false).




End AdminRest.

(** ** unnamed/part_001, first document: the rest *)

Module AdminMiddlewareRest.

Record AdminFromRequest : Type := {
  afr_success : bool;
  admin : option AdminUser;
  afr_error : option string
}.

Definition getAdminFromRequest (e : Env) (request : NextRequest)
  : Exc AdminFromRequest :=
  try_catch
    (let* adminUser := Admin.getCurrentAdminUser e (Some request) in
     match adminUser with
     | None =>
         Ret {| afr_success := false; admin := None;
                afr_error := Some "Admin authentication required" |}
     | Some adminUser =>
         Ret {| afr_success := true; admin := Some adminUser;
                afr_error := None |}
     end)
    (fun _ =>
       Ret {| afr_success := false; admin := None;
              afr_error := Some "Authentication error" |}).

End AdminMiddlewareRest.

(** ** Regular expressions

    The anchored patterns of the sources ([/^...$/.test(s)]) are run by
    derivatives: [matches r s] decides whether the whole of [s] is in the
    language of [r]. *)

Module Regex.

Inductive re : Type :=
| Nothing
| Eps
| Cls (p : ascii -> bool)       (* a character class *)
| Cat (r1 r2 : re)
| Alt (r1 r2 : re)
| Star (r : re).

(** [r+] *)
Definition Plus (r : re) : re := Cat r (Star r).

Fixpoint nullable (r : re) : bool :=
  match r with
  | Nothing => false
  | Eps => true
  | Cls _ => false
  | Cat r1 r2 => nullable r1 && nullable r2
  | Alt r1 r2 => nullable r1 || nullable r2
  | Star _ => true
  end.

Fixpoint deriv (c : ascii) (r : re) : re :=
  match r with
  | Nothing => Nothing
  | Eps => Nothing
  | Cls p => if p c then Eps else Nothing
  | Cat r1 r2 =>
      if nullable r1 then Alt (Cat (deriv c r1) r2) (deriv c r2)
      else Cat (deriv c r1) r2
  | Alt r1 r2 => Alt (deriv c r1) (deriv c r2)
  | Star r1 => Cat (deriv c r1) (Star r1)
  end.

Fixpoint matches (r : re) (s : string) : bool :=
  match s with
  | EmptyString => nullable r
  | String c s' => matches (deriv c r) s'
  end.

(** The language of a pattern. *)
Inductive Matches : re -> string -> Prop :=
| MEps : Matches Eps ""
| MCls p c : p c = true -> Matches (Cls p) (String c "")
| MCat r1 r2 s1 s2 :
    Matches r1 s1 -> Matches r2 s2 -> Matches (Cat r1 r2) (s1 ++ s2)
| MAltL r1 r2 s : Matches r1 s -> Matches (Alt r1 r2) s
| MAltR r1 r2 s : Matches r2 s -> Matches (Alt r1 r2) s
| MStar0 r : Matches (Star r) ""
| MStarS r s1 s2 :
    Matches r s1 -> Matches (Star r) s2 -> Matches (Star r) (s1 ++ s2).

(** [\s] on code units below 256: tab, line feed, vertical tab, form
    feed, carriage return, space, no-break space. *)
Definition whitespace (c : ascii) : bool :=
  let n := nat_of_ascii c in
  ((9 <=? n) && (n <=? 13) || (n =? 32) || (n =? 160))%nat.

Definition is_char (d : ascii) (c : ascii) : bool := Ascii.eqb c d.

End Regex.

(** ** src/app/api/auth/security.ts, first document *)

Module Security.
Import Regex.

(** [s.trim()] *)
Fixpoint trimStart (s : string) : string :=
  match s with
  | String c r => if whitespace c then trimStart r else s
  | EmptyString => EmptyString
  end.

Fixpoint trimEnd (s : string) : string :=
  match s with
  | EmptyString => EmptyString
  | String c r =>
      match trimEnd r with
      | EmptyString => if whitespace c then EmptyString
                       else String c EmptyString
      | r' => String c r'
      end
  end.

Definition trim (s : string) : string := trimEnd (trimStart s).

(** [s.replace(/[...]/g, '')] for a character class. *)
Fixpoint remove_class (cls : ascii -> bool) (s : string) : string :=
  match s with
  | EmptyString => EmptyString
  | String c r => if cls c then remove_class cls r
                  else String c (remove_class cls r)
  end.

Definition angle (c : ascii) : bool := Ascii.eqb c "<" || Ascii.eqb c ">".

(** [s.replace(re, '')] for a global pattern that never matches the
    empty string: [match_length s] is the length of the match of [re]
    that starts at the head of [s], if there is one. The scan goes left
    to right; after a match it resumes behind it ([skip] counts the
    characters of the current match still to be dropped). *)
Fixpoint remove_matches (match_length : string -> option nat)
  (skip : nat) (s : string) : string :=
  match s with
  | EmptyString => EmptyString
  | String c r =>
      match skip with
      | S k => remove_matches match_length k r
      | O =>
          match match_length s with
          | Some (S k) => remove_matches match_length k r
          | _ => String c (remove_matches match_length O r)
          end
      end
  end.

(** Equality of code units under the [i] flag: ASCII letters match in
    either case, any other code unit only itself. *)
Definition eqb_i (a b : ascii) : bool :=
  Ascii.eqb (Password.toLowerCase_char a) (Password.toLowerCase_char b).

Fixpoint startsWith_i (pat s : string) : bool :=
  match pat, s with
  | EmptyString, _ => true
  | String c1 r1, String c2 r2 => eqb_i c1 c2 && startsWith_i r1 r2
  | String _ _, EmptyString => false
  end.

(** [/javascript:/gi] *)
Definition javascript_at (s : string) : option nat :=
  if startsWith_i "javascript:" s then Some 11%nat else None.

(** [\w] *)
Definition word (c : ascii) : bool :=
  Password.lower c || Password.upper c || Password.digit c
  || Ascii.eqb c "_".

(** The length of the longest run of [\w] at the head of [s]. *)
Fixpoint word_run (s : string) : nat :=
  match s with
  | String c r => if word c then S (word_run r) else O
  | EmptyString => O
  end.

(** [/on\w+=/gi]: "on", then word characters, greedily, then "=". Since
    "=" is no word character, only the longest run can be followed by
    it. *)
Definition handler_at (s : string) : option nat :=
  if startsWith_i "on" s then
    let rest := drop 2 s in
    let n := word_run rest in
    if (1 <=? n)%nat && startsWith "=" (drop n rest)
    then Some (2 + n + 1)%nat
    else None
  else None.

Definition sanitizeInput (input : string) : string :=
  remove_matches handler_at O
    (remove_matches javascript_at O
       (remove_class angle (trim input))).

(** [/^[^\s@]+@[^\s@]+\.[^\s@]+$/] *)
Definition plain (c : ascii) : bool :=
  negb (whitespace c || Ascii.eqb c "@").

Definition emailRegex : re :=
  Cat (Plus (Cls plain))
    (Cat (Cls (is_char "@"))
       (Cat (Plus (Cls plain))
          (Cat (Cls (is_char ".")) (Plus (Cls plain))))).

Definition isValidEmail (email : string) : bool := matches emailRegex email.

(** [chars.charAt(i)]: the empty string when [i] is out of range. *)
Definition charAt (s : string) (i : nat) : string :=
  match String.get i s with
  | Some c => String c EmptyString
  | None => EmptyString
  end.

Definition chars : string :=
  "ABCDEFGHIJKLMNOPQRSTUVWXYZabcdefghijklmnopqrstuvwxyz0123456789".

(** [generateSecureToken(length)], given the content of the
    [Uint8Array(length)] after [crypto.getRandomValues] has filled it:
    one character per entry. *)
Fixpoint generateSecureToken (randomArray : list N) : string :=
  match randomArray with
  | [] => EmptyString
  | b :: rest =>
      charAt chars (N.to_nat (b mod N.of_nat (String.length chars)))
      ++ generateSecureToken rest
  end.

(** [s.toLowerCase()] on code units below 256: the ASCII capitals and
    the capitals of the Latin-1 block (all of U+00C0..U+00DE but the
    multiplication sign) move up by 32. *)
Definition toLowerCase_unit (c : ascii) : ascii :=
  let n := nat_of_ascii c in
  if ((65 <=? n) && (n <=? 90)
      || (192 <=? n) && (n <=? 222) && negb (n =? 215))%nat
  then ascii_of_nat (n + 32) else c.

Fixpoint toLowerCase (s : string) : string :=
  match s with
  | EmptyString => EmptyString
  | String c r => String (toLowerCase_unit c) (toLowerCase r)
  end.

Definition commonPasswords : list string :=
  ["password"; "123456"; "123456789"; "qwerty"; "abc123";
   "password123"; "admin"; "letmein"; "welcome"; "monkey"].

(** [array.includes(x)] *)
Definition array_includes (l : list string) (x : string) : bool :=
  existsb (String.eqb x) l.

Record PasswordSecurity : Type := {
  ps_isValid : bool;
  score : Z;
  feedback : list string
}.

(** [if (ok) score += 1; else feedback.push(msg)] *)
Definition check (ok : bool) (msg : string) (st : Z * list string)
  : Z * list string :=
  if ok then (fst st + 1, snd st) else (fst st, (snd st ++ [msg])%list).

Definition validatePasswordSecurity (password : string) : PasswordSecurity :=
  let st : Z * list string := (0, []) in
  let st := check (8 <=? String.length password)%nat
              "Password must be at least 8 characters long" st in
  let st := check (Password.test_class Password.upper password)
              "Password must contain at least one uppercase letter" st in
  let st := check (Password.test_class Password.lower password)
              "Password must contain at least one lowercase letter" st in
  let st := check (Password.test_class Password.digit password)
              "Password must contain at least one number" st in
  let st := check (Password.test_class Password.special password)
              "Password must contain at least one special character" st in
  let st :=
    if array_includes commonPasswords (toLowerCase password)
    then (fst st - 2, (snd st ++ ["Password is too common"])%list)
    else st in
  {| ps_isValid := (fst st >=? 4)%Z;
     score := Z.max 0 (fst st);
     feedback := snd st |}.

(** [class CSRFProtection]: the static [Set] of live tokens. The timer
    set by [generateToken] is the later event [expire]. *)
Definition csrf_generateToken (randomArray : list N) (tokens : gset string)
  : string * gset string :=
  let token := generateSecureToken randomArray in
  (token, {[ token ]} ∪ tokens).

Definition csrf_expire (token : string) (tokens : gset string)
  : gset string :=
  tokens ∖ {[ token ]}.

Definition csrf_validateToken (token : string) (tokens : gset string)
  : bool * gset string :=
  let isValid := bool_decide (token ∈ tokens) in
  (isValid, if isValid then tokens ∖ {[ token ]} else tokens).

Definition csrf_cleanup (_ : gset string) : gset string := ∅.

Record RequestValidation : Type := {
  rv_isValid : bool;
  rv_errors : list string
}.

Definition suspiciousHeaders : list string :=
  ["x-forwarded-for"; "x-real-ip"; "x-forwarded-host"].

(** [validateRequest(request)], with [request.method] given beside the
    request; header names are held in lower case. *)
Definition validateRequest (method : string) (request : NextRequest)
  : RequestValidation :=
  let errors : list string :=
    if String.eqb method "POST" then
      match truthy (req_headers request !! "content-type") with
      | Some contentType =>
          if includes contentType "application/json" then []
          else ["Invalid content type"]
      | None => ["Invalid content type"]
      end
    else [] in
  let errors :=
    fold_left
      (fun errors header =>
         match truthy (req_headers request !! header) with
         | Some _ =>
             (errors ++
              [String.append "Suspicious header detected: " header])%list
         | None => errors
         end)
      suspiciousHeaders errors in
  {| rv_isValid := (List.length errors =? 0)%nat; rv_errors := errors |}.

End Security.

(** ** unnamed/part_001, second document: the pattern check *)

Module Validation.
Import Regex.

(** The same steps as [Security.sanitizeInput], with [trim] last. *)
Definition sanitizeInput (input : string) : string :=
  Security.trim
    (Security.remove_matches Security.handler_at O
       (Security.remove_matches Security.javascript_at O
          (Security.remove_class Security.angle input))).

Definition commonPasswords : list string :=
  ["password"; "123456"; "123456789"; "qwerty"; "abc123";
   "password123"; "admin"; "letmein"; "welcome"; "monkey"].

Definition keyboardPatterns : list string :=
  ["qwerty"; "asdf"; "zxcv"; "1234"; "4321"].

(** [/^[a-zA-Z]+$/] *)
Definition letter (c : ascii) : bool :=
  Password.lower c || Password.upper c.

Definition lettersRegex : re := Plus (Cls letter).

Record PatternCheck : Type := {
  isSecure : bool;
  warnings : list string
}.

Definition checkPasswordCommonPatterns (password : string) : PatternCheck :=
  let warnings : list string := [] in
  let warnings :=
    Password.push_if
      (existsb (includes (Security.toLowerCase password)) commonPasswords)
      "Password contains common words or patterns" warnings in
  let warnings :=
    Password.push_if
      (existsb (includes (Security.toLowerCase password)) keyboardPatterns)
      "Password contains keyboard patterns" warnings in
  let warnings :=
    Password.push_if (Password.repeated password)
      "Password contains repeated characters" warnings in
  let warnings :=
    Password.push_if
      (matches lettersRegex password
       && (String.length password <? 12)%nat)
      "Password appears to be a dictionary word" warnings in
  {| isSecure := (List.length warnings =? 0)%nat; warnings := warnings |}.

End Validation.

(** ** src/lib/db/migrations.ts, third document: the login route *)

Module Login.

Record LoginInput : Type := {
  l_email : string;
  l_password : string
}.

Inductive LoginParse : Type :=
| LoginSuccess (data : LoginInput)
| LoginFailure (issues : json).

(** What the route needs beyond [Env]: zod's [loginSchema.safeParse] and
    [bcrypt.compare]. *)
Record Deps : Type := {
  loginSchema_safeParse : json -> LoginParse;
  bcrypt_compare : string -> string -> Exc bool
}.

(** [verifyPassword] of the password module. *)
Definition verifyPassword (d : Deps) (password hashedPassword : string)
  : Exc bool :=
  try_catch
    (let* isMatch := bcrypt_compare d password hashedPassword in
     Ret isMatch)
    (fun _ => Throw (Error "Failed to verify password")).

Definition invalid_credentials : NextResponse :=
  NextResponse_json (JObj [("error", JStr "Invalid email or password")]) 401.

Definition POST (d : Deps) (e : Env) (request : NextRequest)
  : Exc NextResponse :=
  try_catch
    (let* body := req_json request in
     match loginSchema_safeParse d body with
     | LoginFailure issues =>
         Ret (NextResponse_json
                (JObj [("error", JStr "Validation failed");
                       ("details", issues)])
                400)
     | LoginSuccess data =>
         let* user := Queries.getUserByEmail e (l_email data) in
         match user with
         | None => Ret invalid_credentials
         | Some user =>
             let* isPasswordValid :=
               verifyPassword d (l_password data) (password user) in
             if negb isPasswordValid then Ret invalid_credentials
             else
               let* _ := SessionRest.invalidateUserSessions (id user) in
               let* session := Session.createUserSession e user in
               let token := Session.token session in
               let userResponse :=
                 JObj [("id", JStr (id user));
                       ("email", JStr (u_email user));
                       ("firstName", JOpt (firstName user));
                       ("lastName", JOpt (lastName user));
                       ("role", JStr (role user));
                       ("createdAt", JNum (createdAt user))] in
               let response :=
                 NextResponse_json
                   (JObj [("message", JStr "Login successful");
                          ("user", userResponse)])
                   200 in
               Ret (cookies_set response "auth-session"
                      (Register.session_cookie e token))
         end
     end)
    (fun _ =>
       Ret (NextResponse_json
              (JObj [("error", JStr "Internal server error")]) 500)).

End Login.

(** ** Letters and digits *)

Module Alphabet.

Definition alphanumeric (c : ascii) : bool :=
  Password.upper c || Password.lower c || Password.digit c.

End Alphabet.

(** ** The jsonwebtoken package: a token is never the empty string *)

Module JsonwebtokenMore.

Definition nonempty_tokens (e : Env) : Prop :=
  forall now claims secret options,
    jwt_sign e now claims secret options <> Ret "".

End JsonwebtokenMore.

(** ** More of the concrete world *)

Module SampleMore.

(** The same world as seen by a request that carries the given
    cookies. *)
Definition with_cookies (e : Env) (jar : gmap string string) : Env :=
  {| process_env_JWT_SECRET := process_env_JWT_SECRET e;
     process_env_NODE_ENV := process_env_NODE_ENV e;
     Date_now := Date_now e;
     jwt_sign := jwt_sign e;
     jwt_verify := jwt_verify e;
     select_users_where_id := select_users_where_id e;
     select_users_where_email := select_users_where_email e;
     insert_users_returning := insert_users_returning e;
     bcrypt_hash := bcrypt_hash e;
     registerSchema_safeParse := registerSchema_safeParse e;
     cookies := Ret jar |}.

(** The same world with another outcome of the insert. *)
Definition with_insert (e : Env) (f : NewUser -> Exc (list User)) : Env :=
  {| process_env_JWT_SECRET := process_env_JWT_SECRET e;
     process_env_NODE_ENV := process_env_NODE_ENV e;
     Date_now := Date_now e;
     jwt_sign := jwt_sign e;
     jwt_verify := jwt_verify e;
     select_users_where_id := select_users_where_id e;
     select_users_where_email := select_users_where_email e;
     insert_users_returning := f;
     bcrypt_hash := bcrypt_hash e;
     registerSchema_safeParse := registerSchema_safeParse e;
     cookies := cookies e |}.

(** A store that already holds the user the sample registration
    inserts. *)
Definition carol : User :=
  {| id := "u3"; u_email := "new@b.com"; password := "$2a$12$ValidP@ss1";
     firstName := None; lastName := None; phone := None;
     role := "customer"; createdAt := 1700000000000;
     updatedAt := 1700000000000 |}.

Definition world_after_registration : Env :=
  {| process_env_JWT_SECRET := Some "s3cret";
     process_env_NODE_ENV := Some "production";
     Date_now := 1700000000000;
     jwt_sign := Sample.sign;
     jwt_verify := Sample.verify;
     select_users_where_id :=
       fun k => Ret (List.filter (fun u => String.eqb (id u) k)
                       (Sample.users ++ [carol])%list);
     select_users_where_email :=
       fun k => Ret (List.filter (fun u => String.eqb (u_email u) k)
                       (Sample.users ++ [carol])%list);
     insert_users_returning :=
       fun _ => Throw (Error "duplicate key value violates unique constraint");
     bcrypt_hash := fun pw _ => Ret ("$2a$12$" ++ pw);
     registerSchema_safeParse :=
       fun _ =>
         ParseSuccess {| r_email := "new@b.com";
                         r_password := "ValidP@ss1";
                         r_firstName := None; r_lastName := None |};
     cookies := Ret ∅ |}.

(** A login form with the given password for a@b.com; the stand-in for
    bcrypt accepts the password whose hash is the stored one. *)
Definition login_deps (pw : string) : Login.Deps :=
  {| Login.loginSchema_safeParse :=
       fun _ => Login.LoginSuccess
                  {| Login.l_email := "a@b.com"; Login.l_password := pw |};
     Login.bcrypt_compare :=
       fun pw hashed => Ret (String.eqb hashed ("$2a$12$" ++ pw)) |}.

End SampleMore.

(* ===================================================================== *)
(** * Part II: properties                                                *)
(* ===================================================================== *)

(** ** Strings *)

Module StringFacts.

Lemma startsWith_app (p r : string) : startsWith p (p ++ r) = true.
Proof.
  induction p as [|c p IH]; simpl; [reflexivity|].
  now rewrite Ascii.eqb_refl, IH.
Qed.

Lemma drop_app (p r : string) : drop (String.length p) (p ++ r) = r.
Proof. induction p as [|c p IH]; simpl; auto. Qed.

Lemma drop_empty (n : nat) : drop n "" = "".
Proof. destruct n; reflexivity. Qed.

Lemma replace_unfold (s p rep : string) :
  replace s p rep =
    if startsWith p s then rep ++ drop (String.length p) s
    else match s with
         | EmptyString => EmptyString
         | String c r => String c (replace r p rep)
         end.
Proof. destruct s; reflexivity. Qed.

(** A subject that starts with the pattern loses exactly that prefix. *)
Lemma replace_at_start (p r : string) : replace (p ++ r) p "" = r.
Proof. rewrite replace_unfold, startsWith_app. apply drop_app. Qed.

(** A subject without the pattern is returned as it is. *)
Lemma replace_absent (s p rep : string) :
  includes s p = false -> replace s p rep = s.
Proof.
  induction s as [|c s IH]; simpl; intros H.
  - apply orb_false_iff in H as [H _]. now rewrite H.
  - apply orb_false_iff in H as [H1 H2]. rewrite H1. f_equal. auto.
Qed.

(** The occurrence that is replaced is the leftmost one. *)
Lemma replace_leftmost (pre p post rep : string) :
  (forall k, (k < String.length pre)%nat ->
             startsWith p (drop k (pre ++ p ++ post)) = false) ->
  replace (pre ++ p ++ post) p rep = pre ++ rep ++ post.
Proof.
  induction pre as [|c pre IH]; intros H.
  - change ("" ++ p ++ post) with (p ++ post).
    now rewrite replace_unfold, startsWith_app, drop_app.
  - rewrite replace_unfold.
    pose proof (H 0%nat ltac:(simpl; lia)) as H0.
    change (drop 0 ?x) with x in H0. rewrite H0.
    change (String c pre ++ p ++ post) with (String c (pre ++ p ++ post)).
    change (String c pre ++ rep ++ post) with (String c (pre ++ rep ++ post)).
    cbv iota. f_equal. apply IH.
    intros k Hk. apply (H (S k)). simpl. lia.
Qed.

End StringFacts.

(** ** The token codec *)

Module JwtFacts.
Import Jwt StringFacts Vocabulary.

(** C2, as stated, fails: the pattern is removed wherever it first
    occurs, so a token that merely contains ['temp-token-'] is changed
    although it has no such prefix. *)
Lemma decodeToken_not_prefix_removal :
  let t := "x-temp-token-1" in
  userId <$> decodeToken t = Some "x-1" /\
  without_prefix "temp-token-" t = "x-temp-token-1" /\
  decodeToken t <>
    Some {| userId := without_prefix "temp-token-" t;
            email := "temp@example.com"; iat := None; exp := None |}.
Proof. repeat split. discriminate. Qed.

(** C2 (amended): for every token string, [isTokenExpired] is false and
    [decodeToken] returns, never null, the payload whose e-mail is the
    fixed address, that carries no [iat] or [exp], and whose [userId] is
    the token with the leftmost occurrence of ['temp-token-'] cut out:
    the rest of the token when it starts with that text, the token
    itself when the text does not occur in it. *)
Theorem decodeToken_isTokenExpired_stub (t : string) :
  isTokenExpired t = false /\
  exists u,
    decodeToken t =
      Some {| userId := u; email := "temp@example.com";
              iat := None; exp := None |} /\
    (forall rest, t = "temp-token-" ++ rest -> u = rest) /\
    (includes t "temp-token-" = false -> u = t) /\
    (forall pre post,
        t = pre ++ "temp-token-" ++ post ->
        (forall k, (k < String.length pre)%nat ->
                   startsWith "temp-token-" (drop k t) = false) ->
        u = pre ++ post).
Proof.
  split; [reflexivity|].
  exists (replace t "temp-token-" ""). split; [reflexivity|].
  split; [|split].
  - intros rest ->. apply replace_at_start.
  - apply replace_absent.
  - intros pre post -> H. now rewrite replace_leftmost.
Qed.

(** C10: [getTokenExpiration] is null for every token, the payload that
    [decodeToken] builds having no [exp]. *)
Theorem getTokenExpiration_null (t : string) :
  getTokenExpiration t = Ret None /\
  (exp <$> decodeToken t) = Some None.
Proof. split; reflexivity. Qed.

Example sample_tokens :
  generateToken Sample.world {| c_userId := "u1"; c_email := "a@b.com" |}
    = Ret Sample.alice_token /\
  generateToken Sample.world {| c_userId := "u2"; c_email := "root@b.com" |}
    = Ret Sample.root_token.
Proof. split; reflexivity. Qed.

Lemma JWT_SECRET_nonempty (e : Env) : JWT_SECRET e <> "".
Proof.
  unfold JWT_SECRET, truthy.
  destruct (process_env_JWT_SECRET e) as [[|c s]|]; discriminate.
Qed.

(** C6: a token of [generateToken] is accepted by [verifyToken] at any
    time before its seven days are over, with the [userId] and [email]
    that were signed; both sides use the same secret and the issuer
    'ktlian-wears' and audience 'ktlian-wears-users'. *)
Theorem verifyToken_generateToken (e : Env) (payload : Claims) (now' : Z) :
  Jsonwebtoken.signs e ->
  Jsonwebtoken.verifies_what_it_signs e ->
  Jsonwebtoken.seconds now' <
    Jsonwebtoken.seconds (Date_now e) + 7 * 24 * 60 * 60 ->
  exists tok decoded,
    generateToken e payload = Ret tok /\
    verifyToken (at_time e now') tok = Ret decoded /\
    userId decoded = c_userId payload /\
    email decoded = c_email payload.
Proof.
  intros Hsign Hverify Hnow.
  set (options := {| expiresIn := "7d"; issuer := "ktlian-wears";
                     audience := "ktlian-wears-users" |}).
  destruct (Hsign (Date_now e) payload (JWT_SECRET e) options _
              (JWT_SECRET_nonempty e) eq_refl) as [tok Htok].
  destruct (Hverify (Date_now e) now' payload (JWT_SECRET e) options _ tok
              Htok eq_refl Hnow) as (decoded & Hdec & Hu & Hm).
  exists tok, decoded. repeat split; try assumption.
  - unfold generateToken. fold options. now rewrite Htok.
  - unfold verifyToken. cbn in Hdec |- *.
    change (JWT_SECRET (at_time e now')) with (JWT_SECRET e).
    now rewrite Hdec.
Qed.

Lemma read_unary_unary (n : nat) (rest : string) :
  Sample.read_unary (Sample.unary n rest) = Some (n, rest).
Proof. induction n as [|n IH]; cbn; [reflexivity | now rewrite IH]. Qed.

Lemma take_app (u r : string) : Sample.take (String.length u) (u ++ r) = u.
Proof.
  induction u as [|c u IH]; [reflexivity|].
  change (String c u ++ r) with (String c (u ++ r)).
  cbn [String.length Sample.take]. now rewrite IH.
Qed.

Lemma sample_signs : Jsonwebtoken.signs Sample.world.
Proof. intros now claims secret options span _ _. eexists. reflexivity. Qed.

Lemma sample_verifies : Jsonwebtoken.verifies_what_it_signs Sample.world.
Proof.
  intros now now' claims secret options span tok [= <-] _ _.
  cbn. unfold Sample.verify. rewrite read_unary_unary.
  eexists. split; [reflexivity|]. cbn.
  split; [apply take_app | apply drop_app].
Qed.

Lemma verifyToken_generateToken_witness :
  exists tok decoded,
    generateToken Sample.world
      {| c_userId := "u1"; c_email := "a@b.com" |} = Ret tok /\
    verifyToken (at_time Sample.world 1700000001000) tok = Ret decoded /\
    userId decoded = "u1" /\ email decoded = "a@b.com".
Proof.
  apply (verifyToken_generateToken Sample.world
           {| c_userId := "u1"; c_email := "a@b.com" |} 1700000001000
           sample_signs sample_verifies).
  vm_compute. reflexivity.
Defined.

End JwtFacts.

(** ** The gates of middleware.ts *)

Module MiddlewareFacts.
Import Middleware.

(** C9: when the authentication check throws, [requireAuth] answers
    with a 401 response and [requireGuest] lets the request through. *)
Theorem gates_on_error (err : exn) :
  (exists r, requireAuth (Throw err) = Ret (Some r) /\ status r = 401) /\
  requireGuest (Throw err) = Ret None.
Proof. split; [eexists; split; reflexivity | reflexivity]. Qed.

(** Both gates catch everything. *)
Lemma requireAuth_returns (g : Exc (option User)) : returns (requireAuth g).
Proof. destruct g as [[u|]|err]; eexists; reflexivity. Qed.

Lemma requireGuest_returns (g : Exc (option User)) :
  returns (requireGuest g).
Proof. destruct g as [[u|]|err]; eexists; reflexivity. Qed.

End MiddlewareFacts.

(** ** Password strength *)

Module PasswordFacts.
Import Password Vocabulary.

(** The error list of eight rule outcomes, in the order of the pushes. *)
Lemma errors_eight (b1 b2 b3 b4 b5 b6 b7 b8 : bool)
  (m1 m2 m3 m4 m5 m6 m7 m8 : string) :
  List.length
    (push_if b8 m8 (push_if b7 m7 (push_if b6 m6 (push_if b5 m5
      (push_if b4 m4 (push_if b3 m3 (push_if b2 m2
        (push_if b1 m1 []))))))))
  = List.length (failing [b1; b2; b3; b4; b5; b6; b7; b8]).
Proof.
  destruct b1, b2, b3, b4, b5, b6, b7, b8; reflexivity.
Qed.

(** Every failing rule contributes its own message: nothing is
    short-circuited. *)
Lemma errors_accumulate (password : string) :
  List.length (errors (validatePasswordStrength password)) =
  List.length (failing (rules password)).
Proof. apply errors_eight. Qed.

Lemma isValid_iff_no_rule_fails (password : string) :
  isValid (validatePasswordStrength password) = true <->
  failing (rules password) = [].
Proof.
  pose proof (errors_accumulate password) as H.
  unfold validatePasswordStrength in *. cbn [isValid errors] in *.
  rewrite Nat.eqb_eq, H. split.
  - apply length_zero_iff_nil.
  - now intros ->.
Qed.

(** C4, as stated, fails: "password" is rejected, but none of the
    reported errors speaks of common words. *)
Lemma password_no_common_word_error :
  isValid (validatePasswordStrength "password") = false /\
  existsb mentions_common_word
    (errors (validatePasswordStrength "password")) = false.
Proof. split; vm_compute; reflexivity. Qed.

(** C4 (amended): "password" is invalid and its errors are exactly the
    three missing character classes (upper case, digit, special
    character); "Tr0ub4dor&3!" is valid with no error. *)
Theorem validatePasswordStrength_examples :
  validatePasswordStrength "password" =
    {| isValid := false;
       errors :=
         ["Password must contain at least one uppercase letter";
          "Password must contain at least one number";
          "Password must contain at least one special character (" ++
          special_set ++ ")"] |} /\
  validatePasswordStrength "Tr0ub4dor&3!" =
    {| isValid := true; errors := [] |}.
Proof. split; vm_compute; reflexivity. Qed.

End PasswordFacts.

(** ** Sessions *)

Module SessionFacts.
Import Session.

(** C5: [validateSession] never throws. A token that fails
    verification gives null; a token that verifies gives whatever the
    look-up of its [userId] in the store gives, so a user that no longer
    exists gives null (as does a failing look-up). *)
Theorem validateSession_total (e : Env) (t : string) :
  returns (validateSession e t) /\
  (forall err, Jwt.verifyToken e t = Throw err ->
               validateSession e t = Ret None) /\
  (forall payload, Jwt.verifyToken e t = Ret payload ->
     (Queries.getUserById e (userId payload) = Ret None ->
      validateSession e t = Ret None) /\
     (forall u, Queries.getUserById e (userId payload) = Ret (Some u) ->
                validateSession e t = Ret (Some {| user := u |})) /\
     (forall err, Queries.getUserById e (userId payload) = Throw err ->
                  validateSession e t = Ret None)).
Proof.
  unfold validateSession, returns.
  destruct (Jwt.verifyToken e t) as [payload|err] eqn:Hv; cbn.
  - destruct (Queries.getUserById e (userId payload)) as [[u|]|err] eqn:Hu;
      cbn; (split; [eexists; reflexivity|]);
      (split; [discriminate|]);
      intros p [= <-]; rewrite Hu; cbn;
      repeat split; intros; congruence.
  - split; [eexists; reflexivity|]. split; [reflexivity|]. discriminate.
Qed.

(** The session module's own [getCurrentUser] catches everything too. *)
Lemma getSessionToken_returns (e : Env) : returns (getSessionToken e).
Proof.
  unfold getSessionToken, returns.
  destruct (cookies e); cbn; eexists; reflexivity.
Qed.

Lemma getCurrentUser_returns (e : Env) : returns (getCurrentUser e).
Proof.
  unfold getCurrentUser, returns.
  destruct (getSessionToken e) as [[t|]|err]; cbn;
    try (eexists; reflexivity).
  destruct (validateSession e t) as [sd|err]; cbn; eexists; reflexivity.
Qed.

End SessionFacts.

(** ** Admin authorization *)

Module AdminFacts.
Import Admin AdminMiddleware.

(** Without a usable [auth_token] cookie there is no current user. *)
Lemma getCurrentUser_no_token (e : Env) (request : NextRequest) :
  truthy (req_cookies request !! "auth_token") = None ->
  getCurrentUser e (Some request) = Ret None.
Proof. unfold getCurrentUser. cbn. now intros ->. Qed.

(** A token that does not verify gives no current user either. *)
Lemma getCurrentUser_bad_token (e : Env) (request : NextRequest)
  (t : string) (err : exn) :
  truthy (req_cookies request !! "auth_token") = Some t ->
  Jwt.verifyToken e t = Throw err ->
  getCurrentUser e (Some request) = Ret None.
Proof. unfold getCurrentUser. cbn. now intros -> ->. Qed.

Lemma withAdminAuth_no_user (e : Env) (handler : Handler)
  (request : NextRequest) :
  getCurrentUser e (Some request) = Ret None ->
  withAdminAuth e handler request = Ret admin_auth_required.
Proof.
  intros H. unfold withAdminAuth, getCurrentAdminUser. now rewrite H.
Qed.

(** The wrapper itself never throws, whatever the handler does. *)
Lemma withAdminAuth_returns (e : Env) (handler : Handler)
  (request : NextRequest) :
  returns (withAdminAuth e handler request).
Proof.
  unfold withAdminAuth, returns.
  destruct (getCurrentAdminUser e (Some request)) as [[a|]|err]; cbn;
    try (eexists; reflexivity).
  destruct (handler request a); cbn; eexists; reflexivity.
Qed.

(** C1, as stated, fails: a request with a customer's valid token gets
    the 401 response, not a 403 one, and that response is the very one a
    request without a token, or with a malformed token, gets. An
    administrator's token reaches the handler. *)
Lemma customer_token_401_not_403 :
  let e := Sample.world in
  let with_token t := Sample.request_with "auth_token" t in
  Jwt.verifyToken e Sample.alice_token =
    Ret {| userId := "u1"; email := "a@b.com";
           iat := None; exp := None |} /\
  Queries.getUserById e "u1" = Ret (Some Sample.alice) /\
  role Sample.alice = "customer" /\
  (exists r,
      withAdminAuth e Sample.dashboard (with_token Sample.alice_token)
        = Ret r /\
      status r = 401 /\ status r <> 403 /\
      withAdminAuth e Sample.dashboard Sample.bare_request = Ret r /\
      withAdminAuth e Sample.dashboard (with_token "garbage") = Ret r) /\
  (exists r,
      withAdminAuth e Sample.dashboard (with_token Sample.root_token)
        = Ret r /\
      status r = 200).
Proof.
  cbv zeta. do 3 (split; [reflexivity|]). split.
  - exists admin_auth_required. repeat split; try reflexivity.
    vm_compute. discriminate.
  - eexists. split; reflexivity.
Qed.

(** A verified token whose user row carries a role other than 'admin'
    and 'super_admin' yields no admin user. *)
Lemma getCurrentAdminUser_not_admin (e : Env) (request : NextRequest)
  (t : string) (payload : JWTPayload) (u : User) (rest : list User) :
  truthy (req_cookies request !! "auth_token") = Some t ->
  Jwt.verifyToken e t = Ret payload ->
  select_users_where_id e (userId payload) = Ret (u :: rest) ->
  id u = userId payload ->
  String.eqb (role u) "admin" || String.eqb (role u) "super_admin" = false ->
  getCurrentAdminUser e (Some request) = Ret None.
Proof.
  intros Hc Hv Hdb Hid Hrole.
  unfold getCurrentAdminUser, getCurrentUser.
  cbn. rewrite Hc. cbn. rewrite Hv. cbn.
  unfold Queries.getUserById, Queries.isUserAdmin.
  rewrite Hdb. cbn. rewrite Hid, Hdb. cbn. now rewrite Hrole.
Qed.

(** With an administrator's row the handler is run, and a failure of
    the handler becomes the 500 response. *)
Lemma withAdminAuth_admin (e : Env) (handler : Handler)
  (request : NextRequest) (t : string) (payload : JWTPayload)
  (u : User) (rest : list User) :
  truthy (req_cookies request !! "auth_token") = Some t ->
  Jwt.verifyToken e t = Ret payload ->
  select_users_where_id e (userId payload) = Ret (u :: rest) ->
  id u = userId payload ->
  String.eqb (role u) "admin" || String.eqb (role u) "super_admin" = true ->
  withAdminAuth e handler request =
    try_catch (handler request u) (fun _ => Ret auth_error).
Proof.
  intros Hc Hv Hdb Hid Hrole.
  unfold withAdminAuth, getCurrentAdminUser, getCurrentUser.
  cbn. rewrite Hc. cbn. rewrite Hv. cbn.
  unfold Queries.getUserById, Queries.isUserAdmin.
  rewrite Hdb. cbn. rewrite Hid, Hdb. cbn. now rewrite Hrole.
Qed.

(** The 403 answer of [requireAdminPermission] lies behind the same
    guard: a customer gets the 401 response from it as well. *)
Lemma requireAdminPermission_customer (e : Env) (permission : string)
  (handler : Handler) (request : NextRequest) (t : string)
  (payload : JWTPayload) (u : User) (rest : list User) :
  truthy (req_cookies request !! "auth_token") = Some t ->
  Jwt.verifyToken e t = Ret payload ->
  select_users_where_id e (userId payload) = Ret (u :: rest) ->
  id u = userId payload ->
  role u = "customer" ->
  requireAdminPermission e permission handler request
  = Ret admin_auth_required.
Proof.
  intros Hc Hv Hdb Hid Hrole.
  unfold requireAdminPermission, withAdminAuth.
  rewrite (getCurrentAdminUser_not_admin e request t payload u rest);
    try assumption; [reflexivity | now rewrite Hrole].
Qed.

(** C1 (amended): a request whose [auth_token] cookie verifies and
    resolves to a user of role 'customer' is answered by [withAdminAuth]
    with the 401 response of code ADMIN_AUTH_REQUIRED, without the
    handler being run; it is the response given to every request for
    which no current user is found (no token, or a token that does not
    verify). *)
Theorem withAdminAuth_customer_401 (e : Env) (handler : Handler)
  (request : NextRequest) (t : string) (payload : JWTPayload)
  (u : User) (rest : list User) :
  truthy (req_cookies request !! "auth_token") = Some t ->
  Jwt.verifyToken e t = Ret payload ->
  select_users_where_id e (userId payload) = Ret (u :: rest) ->
  id u = userId payload ->
  role u = "customer" ->
  withAdminAuth e handler request = Ret admin_auth_required /\
  status admin_auth_required = 401 /\
  (forall request',
      getCurrentUser e (Some request') = Ret None ->
      withAdminAuth e handler request' = Ret admin_auth_required).
Proof.
  intros Hc Hv Hdb Hid Hrole. split; [|split].
  - unfold withAdminAuth.
    rewrite (getCurrentAdminUser_not_admin e request t payload u rest);
      try assumption; [reflexivity | now rewrite Hrole].
  - reflexivity.
  - intros request'. apply withAdminAuth_no_user.
Qed.

Lemma withAdminAuth_customer_401_witness :
  withAdminAuth Sample.world Sample.dashboard
    (Sample.request_with "auth_token" Sample.alice_token)
  = Ret admin_auth_required.
Proof.
  refine (proj1 (withAdminAuth_customer_401 Sample.world Sample.dashboard
                   (Sample.request_with "auth_token" Sample.alice_token)
                   Sample.alice_token
                   {| userId := "u1"; email := "a@b.com";
                      iat := None; exp := None |}
                   Sample.alice [] _ _ _ _ _)); reflexivity.
Defined.

End AdminFacts.

(** ** Registration and the two cookie names *)

Module RegisterFacts.
Import Register Vocabulary.

(** The only 201 response of the registration endpoint carries exactly
    one cookie, named 'auth-session'. *)
Lemma POST_201_cookie (e : Env) (request : NextRequest)
  (response : NextResponse) :
  POST e request = Ret response ->
  status response = 201 ->
  exists tok,
    res_cookies response = {[ "auth-session" := session_cookie e tok ]}.
Proof.
  unfold POST. intros H Hs.
  repeat match type of H with
         | context [bind ?m _] =>
             let x := fresh "x" in destruct m as [x|x] eqn:?; cbn in H
         | context [match ?m with _ => _ end] =>
             let x := fresh "x" in destruct m eqn:?; cbn in H
         end;
    try (injection H as <-; cbn in Hs; discriminate);
    try discriminate.
  injection H as <-. eexists. cbn. apply insert_empty.
Qed.

(** What the 201 response of the registration endpoint tells: the body
    was parsed, the user row came from [createUser] on the parsed data
    with the hashed password, [createUserSession] made a session for
    that row, and the one cookie of the response holds the token of that
    session. *)
Lemma POST_201_session (e : Env) (request : NextRequest)
  (response : NextResponse) :
  POST e request = Ret response ->
  status response = 201 ->
  exists body data hashedPassword newUser session,
    req_json request = Ret body /\
    registerSchema_safeParse e body = ParseSuccess data /\
    Password.hashPassword e (r_password data) = Ret hashedPassword /\
    Queries.createUser e
      {| n_email := r_email data;
         n_password := hashedPassword;
         n_firstName := r_firstName data;
         n_lastName := r_lastName data |} = Ret (Some newUser) /\
    Session.createUserSession e newUser = Ret session /\
    res_cookies response
    = {[ "auth-session" := session_cookie e (Session.token session) ]}.
Proof.
  unfold POST. intros H Hs.
  destruct (req_json request) as [body|] eqn:Hb; cbn [bind try_catch] in H.
  2: { destruct (Error_message _) as [m|];
         [destruct (includes m "duplicate key")|];
         injection H as <-; discriminate. }
  destruct (registerSchema_safeParse e body) as [data|] eqn:Hp;
    [|injection H as <-; discriminate].
  destruct (Queries.getUserByEmail e (r_email data))
    as [[old|]|] eqn:Hu; cbn [bind try_catch] in H.
  1: { injection H as <-; discriminate. }
  2: { destruct (Error_message _) as [m|];
         [destruct (includes m "duplicate key")|];
         injection H as <-; discriminate. }
  destruct (negb (Password.isValid
                    (Password.validatePasswordStrength (r_password data))));
    cbn [bind try_catch] in H;
    [injection H as <-; discriminate|].
  destruct (Password.hashPassword e (r_password data)) as [h|] eqn:Hh;
    cbn [bind try_catch] in H.
  2: { destruct (Error_message _) as [m|];
         [destruct (includes m "duplicate key")|];
         injection H as <-; discriminate. }
  destruct (Queries.createUser e _) as [[newUser|]|] eqn:Hc;
    cbn [bind try_catch] in H.
  2, 3: destruct (Error_message _) as [m|];
         [destruct (includes m "duplicate key")|];
         injection H as <-; discriminate.
  destruct (Session.createUserSession e newUser) as [session|] eqn:Hsess;
    cbn [bind try_catch] in H.
  2: { destruct (Error_message _) as [m|];
         [destruct (includes m "duplicate key")|];
         injection H as <-; discriminate. }
  injection H as <-.
  exists body, data, h, newUser, session.
  repeat (split; [first [assumption | reflexivity]|]).
  cbn. apply insert_empty.
Qed.

(** C8: a successful registration stores the token of the session that
    [createUserSession] made for the user row [createUser] returned, in
    the cookie 'auth-session', the name [getSessionToken] reads; a
    request that brings back just the cookies of that response has that
    token under 'auth-session' and no 'auth_token' cookie, so
    [getCurrentUser] of the admin module returns null and
    [getUserFromToken] reports that there is no token. *)
Theorem registration_cookie_unseen_by_admin (e e' : Env)
  (runtime : JWTPayload -> Jwt.Runtime)
  (registration request : NextRequest) (response : NextResponse) :
  POST e registration = Ret response ->
  status response = 201 ->
  req_cookies request = cookie_jar response ->
  (exists body data hashedPassword newUser session,
      req_json registration = Ret body /\
      registerSchema_safeParse e body = ParseSuccess data /\
      Password.hashPassword e (r_password data) = Ret hashedPassword /\
      Queries.createUser e
        {| n_email := r_email data;
           n_password := hashedPassword;
           n_firstName := r_firstName data;
           n_lastName := r_lastName data |} = Ret (Some newUser) /\
      Session.createUserSession e newUser = Ret session /\
      res_cookies response
      = {[ "auth-session" := session_cookie e (Session.token session) ]} /\
      req_cookies request = {[ "auth-session" := Session.token session ]} /\
      (cookies e' = Ret (req_cookies request) ->
       Session.getSessionToken e'
       = Ret (truthy (Some (Session.token session))))) /\
  Session.SESSION_COOKIE_NAME = "auth-session" /\
  req_cookies request !! "auth_token" = None /\
  Admin.getCurrentUser e' (Some request) = Ret None /\
  Jwt.getUserFromToken e' runtime request = Ret no_token.
Proof.
  intros HP Hs Hreq.
  destruct (POST_201_session e registration response HP Hs)
    as (body & data & h & newUser & session & Hb & Hp & Hh & Hc & Hsess & Hck).
  assert (Hjar : req_cookies request
                 = {[ "auth-session" := Session.token session ]}).
  { rewrite Hreq. unfold cookie_jar. rewrite Hck.
    now rewrite map_fmap_singleton. }
  assert (Hnone : req_cookies request !! "auth_token" = None).
  { rewrite Hjar. now apply lookup_singleton_ne. }
  split; [|split; [reflexivity|split; [exact Hnone|split]]].
  - exists body, data, h, newUser, session.
    repeat (split; [assumption|]).
    intros Hcookies. unfold Session.getSessionToken. rewrite Hcookies. cbn.
    unfold Session.SESSION_COOKIE_NAME.
    now rewrite Hjar, lookup_singleton_eq.
  - apply AdminFacts.getCurrentUser_no_token. now rewrite Hnone.
  - unfold Jwt.getUserFromToken. now rewrite Hnone.
Qed.

Lemma registration_cookie_unseen_by_admin_witness :
  exists response,
    POST Sample.world Sample.bare_request = Ret response /\
    Admin.getCurrentUser Sample.world
      (Some {| req_cookies := cookie_jar response;
               req_headers := ∅; req_json := Ret JNull |}) = Ret None /\
    Jwt.getUserFromToken Sample.world (fun _ => Jwt.Truthy "string")
      {| req_cookies := cookie_jar response;
         req_headers := ∅; req_json := Ret JNull |} = Ret no_token.
Proof.
  eexists. split; [reflexivity|].
  match goal with
  | |- Admin.getCurrentUser _ (Some ?request) = _ /\ _ =>
      destruct (registration_cookie_unseen_by_admin Sample.world Sample.world
                  (fun _ => Jwt.Truthy "string")
                  Sample.bare_request request _
                  eq_refl eq_refl eq_refl)
        as (_ & _ & _ & Hadmin & Htoken)
  end.
  split; [exact Hadmin | exact Htoken].
Defined.

End RegisterFacts.

(** ** The rate limiter *)

Module RateLimitFacts.
Import RateLimit Vocabulary.

Lemma get_own (store : gmap string Entry) (k : string) (r : Entry) :
  store !! k = Some r -> get store k = Own r.
Proof. unfold get. now intros ->. Qed.

Lemma get_missing (store : gmap string Entry) (k : string) :
  store !! k = None -> inherited k = false -> get store k = Missing.
Proof. unfold get. now intros -> ->. Qed.

Lemma get_inherited (store : gmap string Entry) (k : string) :
  store !! k = None -> inherited k = true -> get store k = Inherited.
Proof. unfold get. now intros -> ->. Qed.

Section OneCall.
Context (config : RateLimitConfig) (now : Z) (identifier : string)
        (store : gmap string Entry).

(** No entry and no inherited member: a new window is opened. *)
Lemma isAllowed_fresh :
  store !! identifier = None ->
  inherited identifier = false ->
  isAllowed config now identifier store =
    ({| allowed := true;
        remaining := Number (maxRequests config - 1);
        v_resetTime := Number (now + windowMs config) |},
     <[identifier := {| count := 1;
                      resetTime := now + windowMs config |}]> store).
Proof.
  intros H Hi. unfold isAllowed. cbv zeta.
  rewrite (get_missing _ _ H Hi). cbv iota.
  rewrite (get_missing _ _ H Hi). reflexivity.
Qed.

(** An entry whose window is over is dropped and a new one opened. *)
Lemma isAllowed_expired (r : Entry) :
  store !! identifier = Some r ->
  now > resetTime r ->
  inherited identifier = false ->
  isAllowed config now identifier store =
    ({| allowed := true;
        remaining := Number (maxRequests config - 1);
        v_resetTime := Number (now + windowMs config) |},
     <[identifier := {| count := 1;
                      resetTime := now + windowMs config |}]> store).
Proof.
  intros H Hn Hi. unfold isAllowed. cbv zeta.
  rewrite (get_own _ _ _ H). cbv iota.
  replace (now >? resetTime r) with true by lia.
  rewrite (get_missing _ _ (lookup_delete_eq _ _) Hi).
  rewrite insert_delete_eq. reflexivity.
Qed.

(** Inside the window and under the limit: counted and allowed. *)
Lemma isAllowed_under (r : Entry) :
  store !! identifier = Some r ->
  now <= resetTime r ->
  count r < maxRequests config ->
  isAllowed config now identifier store =
    ({| allowed := true;
        remaining := Number (maxRequests config - (count r + 1));
        v_resetTime := Number (resetTime r) |},
     <[identifier := {| count := count r + 1;
                        resetTime := resetTime r |}]> store).
Proof.
  intros H Hn Hc. unfold isAllowed. cbv zeta.
  rewrite (get_own _ _ _ H). cbv iota.
  replace (now >? resetTime r) with false by lia.
  rewrite (get_own _ _ _ H).
  replace (count r >=? maxRequests config) with false by lia.
  reflexivity.
Qed.

(** Inside the window and at the limit: rejected, store untouched. *)
Lemma isAllowed_over (r : Entry) :
  store !! identifier = Some r ->
  now <= resetTime r ->
  maxRequests config <= count r ->
  isAllowed config now identifier store =
    ({| allowed := false;
        remaining := Number 0;
        v_resetTime := Number (resetTime r) |},
     store).
Proof.
  intros H Hn Hc. unfold isAllowed. cbv zeta.
  rewrite (get_own _ _ _ H). cbv iota.
  replace (now >? resetTime r) with false by lia.
  rewrite (get_own _ _ _ H).
  replace (count r >=? maxRequests config) with true by lia.
  reflexivity.
Qed.

(** An identifier that names a member of Object.prototype, and has no
    entry of its own, is always allowed and never recorded. *)
Lemma isAllowed_inherited :
  store !! identifier = None ->
  inherited identifier = true ->
  isAllowed config now identifier store =
    ({| allowed := true; remaining := NaN; v_resetTime := Undefined |},
     store).
Proof.
  intros H Hi. unfold isAllowed. cbv zeta.
  rewrite (get_inherited _ _ H Hi). cbv iota.
  rewrite (get_inherited _ _ H Hi). reflexivity.
Qed.

(** The five cases above are all there is. *)
Lemma isAllowed_cases :
  (store !! identifier = None /\ inherited identifier = false) \/
  (store !! identifier = None /\ inherited identifier = true) \/
  (exists r, store !! identifier = Some r /\
             (now > resetTime r \/
              (now <= resetTime r /\
               (count r < maxRequests config \/
                maxRequests config <= count r)))).
Proof.
  destruct (store !! identifier) as [r|].
  - right. right. exists r. split; [reflexivity|]. lia.
  - destruct (inherited identifier); auto.
Qed.

(** A rejection changes nothing. *)
Lemma isAllowed_rejected_store :
  allowed (fst (isAllowed config now identifier store)) = false ->
  snd (isAllowed config now identifier store) = store /\
  remaining (fst (isAllowed config now identifier store)) = Number 0.
Proof.
  unfold isAllowed. cbv zeta.
  destruct (store !! identifier) as [r|] eqn:H.
  - rewrite (get_own _ _ _ H). cbv iota.
    destruct (now >? resetTime r).
    + unfold get. rewrite lookup_delete_eq.
      destruct (inherited identifier); discriminate.
    + rewrite (get_own _ _ _ H).
      destruct (count r >=? maxRequests config);
        [split; reflexivity | discriminate].
  - unfold get. rewrite H.
    destruct (inherited identifier); cbv iota; rewrite H; discriminate.
Qed.

End OneCall.

(** Consecutive calls for one identifier while its window lasts: the
    entry counts up to the limit and stays there; a call is allowed as
    long as the count it finds is under the limit. *)
Lemma calls_in_window (config : RateLimitConfig) (identifier : string) :
  forall (times : list Z) (store : gmap string Entry) (r : Entry),
    store !! identifier = Some r ->
    Forall (fun t => t <= resetTime r) times ->
    exists vs store',
      calls_at config identifier times store = (vs, store') /\
      (forall (i : nat) v, vs !! i = Some v ->
         allowed v =
           bool_decide (count r + Z.of_nat i < maxRequests config) /\
         (allowed v = false -> remaining v = Number 0)) /\
      store' !! identifier =
        Some {| count :=
                  Z.max (count r)
                    (Z.min (count r + Z.of_nat (List.length times))
                           (maxRequests config));
                resetTime := resetTime r |}.
Proof.
  induction times as [|t times IH]; intros store r Hr Hin.
  - exists [], store. split; [reflexivity|]. split.
    + intros i v Hv. destruct i; discriminate.
    + rewrite Hr. destruct r as [c rt]. cbn. f_equal. f_equal. lia.
  - apply Forall_cons in Hin as [Ht Hin]. cbn [calls_at].
    destruct (Z_lt_le_dec (count r) (maxRequests config)) as [Hc|Hc].
    + rewrite (isAllowed_under config t identifier store r Hr Ht Hc).
      set (r1 := {| count := count r + 1; resetTime := resetTime r |}).
      destruct (IH (<[identifier := r1]> store) r1
                  (lookup_insert_eq _ _ _) Hin)
        as (vs & store' & Hcalls & Hvs & Hst).
      rewrite Hcalls. eexists _, _. split; [reflexivity|]. split.
      * intros [|i] v Hv.
        -- injection Hv as <-. cbn. split; [|discriminate].
           symmetry. apply bool_decide_eq_true. lia.
        -- destruct (Hvs i v Hv) as [Ha Hrem]. split; [|exact Hrem].
           rewrite Ha. apply bool_decide_ext. cbn. lia.
      * rewrite Hst. cbn. f_equal. f_equal. lia.
    + rewrite (isAllowed_over config t identifier store r Hr Ht Hc).
      destruct (IH store r Hr Hin) as (vs & store' & Hcalls & Hvs & Hst).
      rewrite Hcalls. eexists _, _. split; [reflexivity|]. split.
      * intros [|i] v Hv.
        -- injection Hv as <-. cbn. split; [|reflexivity].
           symmetry. apply bool_decide_eq_false. lia.
        -- destruct (Hvs i v Hv) as [Ha Hrem]. split; [|exact Hrem].
           rewrite Ha. rewrite !bool_decide_eq_false_2 by lia. reflexivity.
      * rewrite Hst. f_equal. f_equal. lia.
Qed.

(** The behaviour the limiter is built for, on every identifier that
    does not name a member of Object.prototype. With a limit of five,
    from the call that opens a window (no entry yet, or an expired
    one): the calls made while the window lasts are allowed up to the
    fifth and rejected, with nothing remaining, from the sixth on; the
    count stops at five; the first call after the window is allowed and
    leaves a new entry with count 1. *)
Lemma five_per_window (config : RateLimitConfig) (identifier : string)
  (store : gmap string Entry) (t1 : Z) (times : list Z) :
  maxRequests config = 5 ->
  inherited identifier = false ->
  (store !! identifier = None \/
   exists r, store !! identifier = Some r /\ t1 > resetTime r) ->
  Forall (fun t => t <= t1 + windowMs config) times ->
  exists vs store',
    calls_at config identifier (t1 :: times) store = (vs, store') /\
    (forall (i : nat) v, vs !! i = Some v ->
       allowed v = bool_decide (i < 5)%nat /\
       (allowed v = false -> remaining v = Number 0)) /\
    store' !! identifier =
      Some {| count := Z.min (1 + Z.of_nat (List.length times)) 5;
              resetTime := t1 + windowMs config |} /\
    (forall t', t' > t1 + windowMs config ->
       isAllowed config t' identifier store' =
         ({| allowed := true;
             remaining := Number 4;
             v_resetTime := Number (t' + windowMs config) |},
          <[identifier := {| count := 1;
                             resetTime := t' + windowMs config |}]>
            store')).
Proof.
  intros Hmax Hown Hopen Hin.
  set (r1 := {| count := 1; resetTime := t1 + windowMs config |}).
  assert (H1 : isAllowed config t1 identifier store =
               ({| allowed := true;
                   remaining := Number (maxRequests config - 1);
                   v_resetTime := Number (t1 + windowMs config) |},
                <[identifier := r1]> store)).
  { destruct Hopen as [Hn | (r & Hr & Ht)].
    - now apply isAllowed_fresh.
    - now apply (isAllowed_expired config t1 identifier store r). }
  cbn [calls_at]. rewrite H1.
  destruct (calls_in_window config identifier times
              (<[identifier := r1]> store) r1
              (lookup_insert_eq _ _ _) Hin)
    as (vs & store' & Hcalls & Hvs & Hst).
  rewrite Hcalls. eexists _, _. split; [reflexivity|].
  split; [|split].
  - intros [|i] v Hv.
    + injection Hv as <-. cbn. split; [reflexivity | discriminate].
    + destruct (Hvs i v Hv) as [Ha Hrem]. split; [|exact Hrem].
      rewrite Ha, Hmax. apply bool_decide_ext. cbn. lia.
  - rewrite Hst. cbn. f_equal. f_equal. lia.
  - intros t' Ht'.
    rewrite (isAllowed_expired config t' identifier store' _ Hst)
      by (cbn; lia || assumption).
    now rewrite Hmax.
Qed.

Example six_calls_ordinary_identifier :
  map allowed
      (fst (calls_at authRateLimiter "Mozilla/5.0"
              [0; 10; 20; 30; 40; 50] ∅))
  = [true; true; true; true; true; false].
Proof. reflexivity. Qed.

(** A client whose User-Agent header is the single word "constructor"
    is identified by that word. *)
Example constructor_is_a_client_identifier :
  getClientIdentifier
    {| req_cookies := ∅;
       req_headers := {[ "user-agent" := "constructor" ]};
       req_json := Ret JNull |}
  = "constructor".
Proof. reflexivity. Qed.

(** C3 fails on the code for the identifier "constructor" (and the
    other names of Object.prototype's members): on a new limiter, with
    whatever limit and window and at whatever times, every call for it
    is allowed, the sixth included, and nothing is recorded. *)
Theorem constructor_never_limited (config : RateLimitConfig)
  (times : list Z) :
  calls_at config "constructor" times ∅ =
    (map (fun _ => {| allowed := true; remaining := NaN;
                      v_resetTime := Undefined |}) times,
     ∅).
Proof.
  induction times as [|t times IH]; [reflexivity|].
  cbn [calls_at map].
  rewrite (isAllowed_inherited config t "constructor" ∅)
    by reflexivity.
  now rewrite IH.
Qed.

Example six_calls_constructor :
  map allowed
      (fst (calls_at authRateLimiter "constructor"
              [0; 10; 20; 30; 40; 50] ∅))
  = [true; true; true; true; true; true].
Proof. reflexivity. Qed.

(** *** The invariant of the store *)

Lemma bounded_isAllowed (config : RateLimitConfig) (now : Z)
  (identifier : string) (store : gmap string Entry) :
  1 <= maxRequests config ->
  bounded config store ->
  bounded config (snd (isAllowed config now identifier store)).
Proof.
  intros Hmax Hb.
  destruct (isAllowed_cases config now identifier store)
    as [[Hn Hi] | [[Hn Hi] | (r & Hr & [Hexp | [Hin [Hc | Hc]]])]].
  - rewrite isAllowed_fresh by assumption. cbn.
    intros k r [[-> <-] | [_ Hk]]%lookup_insert_Some; cbn; eauto.
  - rewrite isAllowed_inherited by assumption. exact Hb.
  - destruct (inherited identifier) eqn:Hi.
    + (* an own entry under an inherited name: dropped, not replaced *)
      unfold isAllowed. cbv zeta. rewrite (get_own _ _ _ Hr). cbv iota.
      replace (now >? resetTime r) with true by lia.
      rewrite (get_inherited _ _ (lookup_delete_eq _ _) Hi). cbn.
      intros k r' [_ Hk]%lookup_delete_Some. eauto.
    + rewrite (isAllowed_expired config now identifier store r)
        by assumption.
      cbn. intros k r' [[-> <-] | [_ Hk]]%lookup_insert_Some; cbn; eauto.
  - rewrite (isAllowed_under config now identifier store r) by assumption.
    cbn. intros k r' [[-> <-] | [_ Hk]]%lookup_insert_Some; cbn;
      [lia | eauto].
  - rewrite (isAllowed_over config now identifier store r) by assumption.
    exact Hb.
Qed.

Lemma cleanup_lookup (now : Z) (store : gmap string Entry)
  (k : string) (r : Entry) :
  cleanup now store !! k = Some r <->
  store !! k = Some r /\ now <= resetTime r.
Proof.
  unfold cleanup. rewrite map_lookup_filter_Some. cbn. intuition lia.
Qed.

Lemma bounded_step (config : RateLimitConfig) (store : gmap string Entry)
  (c : Call) :
  1 <= maxRequests config ->
  bounded config store ->
  bounded config (step config store c).
Proof.
  intros Hmax Hb. destruct c as [now identifier | now]; cbn [step].
  - now apply bounded_isAllowed.
  - intros k r [Hk _]%cleanup_lookup. eauto.
Qed.

Lemma bounded_fold (config : RateLimitConfig) (calls : list Call) :
  1 <= maxRequests config ->
  forall store, bounded config store ->
                bounded config (fold_left (step config) calls store).
Proof.
  intros Hmax. induction calls as [|c calls IH]; intros store Hb;
    [exact Hb|].
  cbn [fold_left]. apply IH. now apply bounded_step.
Qed.

(** On a limiter whose limit is a whole number of at least one, the
    store keeps every count within the limit, a rejected request changes
    nothing, and right after a [cleanup] no entry left has expired. *)
Lemma store_invariant_whole_limit (config : RateLimitConfig)
  (calls : list Call) :
  1 <= maxRequests config ->
  bounded config (run config calls) /\
  (forall now identifier,
      allowed (fst (isAllowed config now identifier (run config calls)))
        = false ->
      snd (isAllowed config now identifier (run config calls))
        = run config calls) /\
  (forall now k r,
      run config (calls ++ [CallCleanup now]) !! k = Some r ->
      now <= resetTime r).
Proof.
  intros Hmax. split; [|split].
  - apply bounded_fold; [exact Hmax|]. intros k r H.
    now rewrite lookup_empty in H.
  - intros now identifier. apply isAllowed_rejected_store.
  - intros now k r. unfold run. rewrite fold_left_app. cbn.
    now intros [_ H]%cleanup_lookup.
Qed.

(** C7: the class [RateLimiter] is private to its module, which makes
    two limiters of it, [authRateLimiter] and [generalRateLimiter]. For
    each of them, after any sequence of [isAllowed] and [cleanup] calls
    every entry of the store has a count not above the limit, a rejected
    request leaves the store as it was (so it does not increment a
    count), and right after a [cleanup] every entry left has a reset
    time not earlier than the time of that [cleanup]. *)
Theorem store_invariant (calls : list Call) :
  Forall
    (fun config =>
       (forall k r, run config calls !! k = Some r ->
                    count r <= maxRequests config) /\
       (forall now identifier,
           allowed (fst (isAllowed config now identifier (run config calls)))
             = false ->
           snd (isAllowed config now identifier (run config calls))
             = run config calls) /\
       (forall now k r,
           run config (calls ++ [CallCleanup now]) !! k = Some r ->
           now <= resetTime r))
    [authRateLimiter; generalRateLimiter].
Proof.
  constructor; [|constructor; [|constructor]].
  - destruct (store_invariant_whole_limit authRateLimiter calls)
      as (Hb & Hr & Hc); [cbn; lia|].
    split; [exact Hb|split; [exact Hr|exact Hc]].
  - destruct (store_invariant_whole_limit generalRateLimiter calls)
      as (Hb & Hr & Hc); [cbn; lia|].
    split; [exact Hb|split; [exact Hr|exact Hc]].
Qed.

End RateLimitFacts.

(* ===================================================================== *)
(** * Part III: further properties of the embedded code                  *)
(* ===================================================================== *)

(** ** validatePasswordStrength, in general *)

Module PasswordStrengthFacts.
Import Password Vocabulary.

Lemma failing_nil_iff (b1 b2 b3 b4 b5 b6 b7 b8 : bool) :
  failing [b1; b2; b3; b4; b5; b6; b7; b8] = [] <->
  b1 = false /\ b2 = false /\ b3 = false /\ b4 = false /\
  b5 = false /\ b6 = false /\ b7 = false /\ b8 = false.
Proof.
  destruct b1, b2, b3, b4, b5, b6, b7, b8; cbn; split; intros H;
    first [ discriminate H | reflexivity | now repeat split
          | decompose [and] H; discriminate ].
Qed.










End PasswordStrengthFacts.

(** ** The two gates together *)

Module GateFacts.
Import Middleware.

(** [requireAuth] lets the request through exactly when the
    authentication check finds a user, [requireGuest] exactly when it
    does not. A found user gets the 400 response 'Already authenticated'
    from [requireGuest]; no user gets the 401 response 'Authentication
    required' from [requireAuth]. With [getCurrentUser] of the session
    module, which never throws, [requireGuest] lets through exactly the
    requests for which it returns null. *)
Theorem gates_complementary (g : Exc (option User)) :
  (requireAuth g = Ret None <-> exists u, g = Ret (Some u)) /\
  (requireGuest g = Ret None <-> forall u, g <> Ret (Some u)) /\
  (forall u, g = Ret (Some u) ->
             requireGuest g
             = Ret (Some (NextResponse_json
                            (JObj [("error", JStr "Already authenticated")])
                            400))) /\
  (g = Ret None ->
   requireAuth g
   = Ret (Some (NextResponse_json
                  (JObj [("error", JStr "Authentication required")])
                  401))) /\
  (forall e,
      (requireAuth (Session.getCurrentUser e) = Ret None <->
       exists u, Session.getCurrentUser e = Ret (Some u)) /\
      (requireGuest (Session.getCurrentUser e) = Ret None <->
       Session.getCurrentUser e = Ret None)).
Proof.
  assert (Hauth : forall g : Exc (option User),
             requireAuth g = Ret None <-> exists u, g = Ret (Some u)).
  { intros [[u|]|err]; cbn; split;
      first [ discriminate | intros [u' H]; discriminate H
            | reflexivity | eauto ]. }
  split; [apply Hauth|]. split; [|split; [|split]].
  - destruct g as [[u|]|err]; cbn; split;
      first [ discriminate | reflexivity | idtac ].
    intros H. now destruct (H u).
  - intros u ->. reflexivity.
  - intros ->. reflexivity.
  - intros e. split; [apply Hauth|].
    destruct (SessionFacts.getCurrentUser_returns e) as [[u|] ->]; cbn;
      split; first [ discriminate | reflexivity ].
Qed.

End GateFacts.

(** ** The admin checks together *)

Module AdminCheckFacts.
Import Admin AdminMiddleware AdminRest AdminMiddlewareRest.

Lemma getCurrentAdminUser_cases (e : Env) (request : option NextRequest) :
  getCurrentAdminUser e request = Ret None \/
  exists u, getCurrentAdminUser e request = Ret (Some u) /\
            getCurrentUser e request = Ret (Some u) /\
            Queries.isUserAdmin e (id u) = Ret true.
Proof.
  unfold getCurrentAdminUser.
  destruct (getCurrentUser e request) as [[u|]|err]; cbn; auto.
  destruct (Queries.isUserAdmin e (id u)) as [[|]|err] eqn:Hadm; cbn; auto.
  right. exists u. repeat split; first [reflexivity | exact Hadm].
Qed.

(** [isCurrentUserAdmin], [getAdminFromRequest] and [withAdminAuth]
    decide alike and none of them throws. When the answer is no, the
    wrapper gives the 401 response whatever the handler is; when it is
    yes, the user is one for whom [isUserAdmin] said true, the wrapper
    runs the handler on that user, and a failure of the handler becomes
    the 500 response. *)
Theorem admin_checks_agree (e : Env) (request : NextRequest) :
  exists b res,
    isCurrentUserAdmin e (Some request) = Ret b /\
    getAdminFromRequest e request = Ret res /\
    afr_success res = b /\
    (b = false ->
     admin res = None /\
     forall handler,
       withAdminAuth e handler request = Ret admin_auth_required) /\
    (b = true ->
     exists u,
       admin res = Some u /\
       Queries.isUserAdmin e (id u) = Ret true /\
       forall handler,
         withAdminAuth e handler request =
           try_catch (handler request u) (fun _ => Ret auth_error)).
Proof.
  unfold isCurrentUserAdmin, getAdminFromRequest, withAdminAuth.
  destruct (getCurrentAdminUser_cases e (Some request))
    as [H | (u & H & _ & Hadm)]; rewrite H; cbn.
  - exists false. eexists. do 3 (split; [reflexivity|]).
    split; [|discriminate]. intros _. split; reflexivity.
  - exists true. eexists. do 3 (split; [reflexivity|]).
    split; [discriminate|]. intros _. exists u.
    split; [reflexivity|]. split; [exact Hadm|].
    intros handler. destruct (handler request u); reflexivity.
Qed.


End AdminCheckFacts.

(** ** Sessions: issue, validate, refresh *)

Module SessionRoundTripFacts.
Import Session SessionRest.

(** Signing then verifying, as the two wrappers call the package. *)
Lemma generate_then_verify (e : Env) (payload : Claims) (now' : Z) :
  Jsonwebtoken.signs e ->
  Jsonwebtoken.verifies_what_it_signs e ->
  Jsonwebtoken.seconds now' <
    Jsonwebtoken.seconds (Date_now e) + 7 * 24 * 60 * 60 ->
  exists tok decoded,
    Jwt.generateToken e payload = Ret tok /\
    Jwt.verifyToken (at_time e now') tok = Ret decoded /\
    userId decoded = c_userId payload.
Proof.
  intros Hsign Hverify Hnow.
  set (options := {| expiresIn := "7d"; issuer := "ktlian-wears";
                     audience := "ktlian-wears-users" |}).
  destruct (Hsign (Date_now e) payload (Jwt.JWT_SECRET e) options _
              (JwtFacts.JWT_SECRET_nonempty e) eq_refl) as [tok Htok].
  destruct (Hverify (Date_now e) now' payload (Jwt.JWT_SECRET e) options _
              tok Htok eq_refl Hnow) as (decoded & Hdec & Hu & _).
  exists tok, decoded. split; [|split; [|exact Hu]].
  - unfold Jwt.generateToken. fold options. now rewrite Htok.
  - unfold Jwt.verifyToken. cbn in Hdec |- *.
    change (Jwt.JWT_SECRET (at_time e now')) with (Jwt.JWT_SECRET e).
    now rewrite Hdec.
Qed.

Lemma create_then_validate (e : Env) (u u' : User) (rest : list User)
  (now' : Z) :
  Jsonwebtoken.signs e ->
  Jsonwebtoken.verifies_what_it_signs e ->
  Jsonwebtoken.seconds now' <
    Jsonwebtoken.seconds (Date_now e) + 7 * 24 * 60 * 60 ->
  select_users_where_id e (id u) = Ret (u' :: rest) ->
  exists s,
    createUserSession e u = Ret s /\
    validateSession (at_time e now') (token s) = Ret (Some {| user := u' |}).
Proof.
  intros Hsign Hverify Hnow Hdb.
  destruct (generate_then_verify e
              {| c_userId := id u; c_email := u_email u |} now'
              Hsign Hverify Hnow) as (tok & decoded & Hg & Hv & Hu).
  exists {| token := tok |}. split.
  - unfold createUserSession. now rewrite Hg.
  - unfold validateSession. cbn [token]. rewrite Hv. cbn.
    unfold Queries.getUserById. cbn. rewrite Hu. cbn. now rewrite Hdb.
Qed.

(** A session created for a user validates, at any time within seven
    days, to the row the store holds under that user's id. *)
Theorem session_round_trip (e : Env) (u u' : User) (rest : list User)
  (now' : Z) :
  Jsonwebtoken.signs e ->
  Jsonwebtoken.verifies_what_it_signs e ->
  Jsonwebtoken.seconds now' <
    Jsonwebtoken.seconds (Date_now e) + 7 * 24 * 60 * 60 ->
  select_users_where_id e (id u) = Ret (u' :: rest) ->
  exists s,
    createUserSession e u = Ret s /\
    validateSession (at_time e now') (token s) = Ret (Some {| user := u' |}).
Proof. apply create_then_validate. Qed.

Lemma session_round_trip_witness :
  exists s,
    createUserSession Sample.world Sample.alice = Ret s /\
    validateSession (at_time Sample.world 1700000001000) (token s)
    = Ret (Some {| user := Sample.alice |}).
Proof.
  apply (session_round_trip Sample.world Sample.alice Sample.alice
           [] 1700000001000 JwtFacts.sample_signs JwtFacts.sample_verifies).
  - vm_compute. reflexivity.
  - reflexivity.
Defined.

(** [refreshSession] never throws, whatever the package and the store
    do. It returns null when the old token does not validate, and also
    when it validates but no new session can be created; otherwise it
    returns the session [createUserSession] made for the user of the old
    token. When the old token validates to a user that the store holds
    under its own id and the package signs and verifies as documented,
    the new token validates to the same user for the next seven days. *)
Theorem refresh_then_validate (e : Env) (t : string) :
  returns (refreshSession e t) /\
  (validateSession e t = Ret None -> refreshSession e t = Ret None) /\
  (forall err, validateSession e t = Throw err ->
               refreshSession e t = Ret None) /\
  (forall sd err,
      validateSession e t = Ret (Some sd) ->
      createUserSession e (user sd) = Throw err ->
      refreshSession e t = Ret None) /\
  (forall sd s,
      validateSession e t = Ret (Some sd) ->
      createUserSession e (user sd) = Ret s ->
      refreshSession e t = Ret (Some s)) /\
  (forall u rest now',
      Jsonwebtoken.signs e ->
      Jsonwebtoken.verifies_what_it_signs e ->
      Jsonwebtoken.seconds now' <
        Jsonwebtoken.seconds (Date_now e) + 7 * 24 * 60 * 60 ->
      select_users_where_id e (id u) = Ret (u :: rest) ->
      validateSession e t = Ret (Some {| user := u |}) ->
      exists s,
        refreshSession e t = Ret (Some s) /\
        validateSession (at_time e now') (token s)
        = Ret (Some {| user := u |})).
Proof.
  split; [|split; [|split; [|split; [|split]]]].
  - unfold refreshSession, returns.
    destruct (validateSession e t) as [[sd|]|err]; cbn;
      try (eexists; reflexivity).
    destruct (createUserSession e (user sd)); cbn; eexists; reflexivity.
  - intros H. unfold refreshSession. now rewrite H.
  - intros err H. unfold refreshSession. now rewrite H.
  - intros sd err H Hc. unfold refreshSession. rewrite H. cbn.
    now rewrite Hc.
  - intros sd s H Hc. unfold refreshSession. rewrite H. cbn.
    now rewrite Hc.
  - intros u rest now' Hsign Hverify Hnow Hdb H.
    destruct (create_then_validate e u u rest now' Hsign Hverify Hnow Hdb)
      as (s & Hc & Hv).
    exists s. split; [|exact Hv].
    unfold refreshSession. rewrite H. cbn. now rewrite Hc.
Qed.

Lemma refresh_then_validate_witness :
  exists s,
    refreshSession Sample.world Sample.alice_token = Ret (Some s) /\
    validateSession (at_time Sample.world 1700000001000) (token s)
    = Ret (Some {| user := Sample.alice |}).
Proof.
  refine (proj2 (proj2 (proj2 (proj2 (proj2
    (refresh_then_validate Sample.world Sample.alice_token)))))
       Sample.alice [] 1700000001000
       JwtFacts.sample_signs JwtFacts.sample_verifies _ _ _).
  - vm_compute. reflexivity.
  - reflexivity.
  - reflexivity.
Defined.

(** [isAuthenticated] has no try block, yet never throws; it is true
    exactly when the session cookie leads to a user, which is exactly
    when the [requireAuth] gate lets the request through. *)
Theorem isAuthenticated_spec (e : Env) :
  exists b,
    isAuthenticated e = Ret b /\
    (b = true <-> exists u, getCurrentUser e = Ret (Some u)) /\
    (b = true <-> Middleware.requireAuth (getCurrentUser e) = Ret None).
Proof.
  unfold isAuthenticated.
  destruct (SessionFacts.getCurrentUser_returns e) as [[u|] H]; rewrite H; cbn.
  - exists true. split; [reflexivity|]. split; split; eauto.
  - exists false. split; [reflexivity|].
    split; split; try discriminate.
    intros [u [=]].
Qed.

(** [getSessionWithUser] gives the user of [validateSession] together
    with the token it was asked about, and null in every other case. *)
Lemma getSessionWithUser_spec (e : Env) (t : string) :
  (forall u, validateSession e t = Ret (Some {| user := u |}) ->
     getSessionWithUser e t =
       Ret (Some {| swu_user := u; swu_session := {| token := t |} |})) /\
  (validateSession e t = Ret None -> getSessionWithUser e t = Ret None).
Proof.
  unfold getSessionWithUser. split.
  - intros u ->. reflexivity.
  - intros ->. reflexivity.
Qed.

End SessionRoundTripFacts.

(** ** Token helpers of jwt.ts *)

Module TokenHelperFacts.
Import Jwt JwtRefresh.

(** [getUserFromToken] never throws and has four outcomes. It succeeds
    exactly when the request has a non-empty 'auth_token' cookie that
    [verifyToken] accepts and whose payload is, at run time, truthy with
    a string [userId]; it then reports that [userId]. Otherwise it
    reports 'No authentication token' when the cookie is missing or
    empty, 'Authentication error' when verification throws, and
    'Invalid authentication token' when the token verifies but the
    payload is falsy or its [userId] is not a string. *)
Theorem getUserFromToken_spec (e : Env) (runtime : JWTPayload -> Runtime)
  (request : NextRequest) :
  exists res,
    getUserFromToken e runtime request = Ret res /\
    (success res = true <->
     exists t p, truthy (req_cookies request !! "auth_token") = Some t /\
                 verifyToken e t = Ret p /\
                 runtime p = Truthy "string" /\
                 uft_userId res = Some (userId p)) /\
    (truthy (req_cookies request !! "auth_token") = None ->
     res = {| success := false; uft_userId := None;
              error := Some "No authentication token" |}) /\
    (forall t err,
        truthy (req_cookies request !! "auth_token") = Some t ->
        verifyToken e t = Throw err ->
        res = {| success := false; uft_userId := None;
                 error := Some "Authentication error" |}) /\
    (forall t p,
        truthy (req_cookies request !! "auth_token") = Some t ->
        verifyToken e t = Ret p ->
        runtime p <> Truthy "string" ->
        res = {| success := false; uft_userId := None;
                 error := Some "Invalid authentication token" |}) /\
    (forall t p,
        truthy (req_cookies request !! "auth_token") = Some t ->
        verifyToken e t = Ret p ->
        runtime p = Truthy "string" ->
        res = {| success := true; uft_userId := Some (userId p);
                 error := None |}).
Proof.
  assert (Hguard : forall r, invalid_payload r = false <-> r = Truthy "string").
  { intros [|ty]; cbn; [split; discriminate|].
    rewrite negb_false_iff, String.eqb_eq. split; congruence. }
  unfold getUserFromToken.
  destruct (truthy (req_cookies request !! "auth_token")) as [t|] eqn:Hc.
  - destruct (verifyToken e t) as [p|err] eqn:Hv; cbn.
    + destruct (invalid_payload (runtime p)) eqn:Hi.
      * assert (Hr : runtime p <> Truthy "string").
        { intros Hr%Hguard. congruence. }
        eexists. split; [reflexivity|]. cbn.
        split; [|split; [|split; [|split]]].
        -- split; [discriminate|].
           intros (t' & p' & [= <-] & Hp & Hr' & _).
           rewrite Hv in Hp. injection Hp as <-. contradiction.
        -- discriminate.
        -- intros t' err [= <-]. rewrite Hv. discriminate.
        -- reflexivity.
        -- intros t' p' [= <-]. rewrite Hv. intros [= <-]. contradiction.
      * apply Hguard in Hi.
        eexists. split; [reflexivity|]. cbn.
        split; [|split; [|split; [|split]]].
        -- split; [|reflexivity]. intros _. exists t, p. auto.
        -- discriminate.
        -- intros t' err [= <-]. rewrite Hv. discriminate.
        -- intros t' p' [= <-]. rewrite Hv. intros [= <-]. contradiction.
        -- intros t' p' [= <-]. rewrite Hv. intros [= <-] _. reflexivity.
    + eexists. split; [reflexivity|]. cbn.
      split; [|split; [|split; [|split]]].
      * split; [discriminate|]. intros (t' & p & [= <-] & Hp & _).
        rewrite Hv in Hp. discriminate.
      * discriminate.
      * reflexivity.
      * intros t' p' [= <-]. rewrite Hv. discriminate.
      * intros t' p' [= <-]. rewrite Hv. discriminate.
  - cbn. eexists. split; [reflexivity|]. cbn.
    split; [|split; [|split; [|split]]].
    + split; [discriminate|]. intros (t' & p & [=] & _).
    + reflexivity.
    + discriminate.
    + discriminate.
    + discriminate.
Qed.

(** The four outcomes on the sample world: the token of a customer
    signed without a string [userId] is refused as invalid. *)
Example getUserFromToken_outcomes :
  getUserFromToken Sample.world (fun _ => Truthy "string")
    (Sample.request_with "auth_token" Sample.alice_token)
  = Ret {| success := true; uft_userId := Some "u1"; error := None |} /\
  getUserFromToken Sample.world (fun _ => Truthy "undefined")
    (Sample.request_with "auth_token" Sample.alice_token)
  = Ret {| success := false; uft_userId := None;
           error := Some "Invalid authentication token" |} /\
  getUserFromToken Sample.world (fun _ => Truthy "string")
    (Sample.request_with "auth_token" "no such token")
  = Ret {| success := false; uft_userId := None;
           error := Some "Authentication error" |} /\
  getUserFromToken Sample.world (fun _ => Truthy "string")
    Sample.bare_request
  = Ret {| success := false; uft_userId := None;
           error := Some "No authentication token" |}.
Proof. repeat split; reflexivity. Qed.

(** [verifyRefreshToken] returns only payloads whose [type] is
    'refresh'. A token that the package verifies but that has another
    type, or none (an access token), is refused with the message
    'Refresh token verification failed': the 'Invalid refresh token'
    thrown by the type test is caught by the function's own catch
    clause and replaced. Every refusal is one of three messages. *)
Theorem verifyRefreshToken_spec (lib : Library) (e : Env) (t : string) :
  let verified :=
    verify lib (Date_now e) t (JWT_SECRET e)
      {| v_issuer := "ktlian-wears"; v_audience := "ktlian-wears-users" |} in
  (forall d, verifyRefreshToken lib e t = Ret d ->
             verified = Ret d /\ tp_type d = Some "refresh") /\
  (forall d, verified = Ret d -> tp_type d <> Some "refresh" ->
             verifyRefreshToken lib e t =
               Throw (Error "Refresh token verification failed")) /\
  (forall err, verifyRefreshToken lib e t = Throw err ->
               err = Error "Refresh token has expired" \/
               err = Error "Invalid refresh token" \/
               err = Error "Refresh token verification failed").
Proof.
  cbv zeta. unfold verifyRefreshToken.
  destruct (verify lib (Date_now e) t (JWT_SECRET e) _) as [d|err0]; cbn.
  - destruct (tp_type d) as [ty|] eqn:Hty.
    + destruct (String.eqb_spec ty "refresh") as [->|Hne].
      * cbn. split; [|split].
        -- intros d' [= <-]. split; [reflexivity | exact Hty].
        -- intros d' [= <-] Hd'. congruence.
        -- discriminate.
      * assert (Hm : match ty with
                     | "refresh" => Ret d
                     | _ => Throw (Error "Invalid refresh token")
                     end = Throw (Error "Invalid refresh token")).
        { clear -Hne.
          repeat (match goal with
                  | |- context [match ?x with _ => _ end] =>
                      destruct x; try reflexivity
                  end).
          congruence. }
        rewrite Hm. cbn. split; [|split].
        -- discriminate.
        -- intros d' [= <-] _. reflexivity.
        -- intros err [= <-]. auto.
    + cbn. split; [|split].
      * discriminate.
      * intros d' [= <-] _. reflexivity.
      * intros err [= <-]. auto.
  - destruct err0; cbn; (split; [|split]); try discriminate;
      intros err [= <-];
      first [ left; reflexivity | right; left; reflexivity
            | right; right; reflexivity ].
Qed.

End TokenHelperFacts.

(** ** Registration and login, end to end *)

Module RouteFacts.
Import Vocabulary SampleMore JsonwebtokenMore.

Ltac run_route H :=
  repeat match type of H with
         | context [bind ?m _] =>
             let x := fresh "x" in destruct m as [x|x] eqn:?; cbn in H
         | context [match ?m with _ => _ end] =>
             let x := fresh "x" in destruct m eqn:?; cbn in H
         end.

(** What a 201 response of the registration route tells. *)
Lemma register_201_inv (e : Env) (request : NextRequest)
  (response : NextResponse) :
  Register.POST e request = Ret response ->
  status response = 201 ->
  exists nu newUser tok,
    Queries.createUser e nu = Ret (Some newUser) /\
    Jwt.generateToken e
      {| c_userId := id newUser; c_email := u_email newUser |} = Ret tok /\
    cookie_jar response = {[ "auth-session" := tok ]}.
Proof.
  unfold Register.POST. intros H Hs.
  destruct (req_json request) as [body|] eqn:Hb; cbn [bind try_catch] in H.
  2: { destruct (Register.Error_message _) as [m|];
         [destruct (includes m "duplicate key")|];
         injection H as <-; discriminate. }
  destruct (registerSchema_safeParse e body) as [data|] eqn:Hp;
    [|injection H as <-; discriminate].
  destruct (Queries.getUserByEmail e (r_email data))
    as [[old|]|] eqn:Hu; cbn [bind try_catch] in H.
  1: { injection H as <-; discriminate. }
  2: { destruct (Register.Error_message _) as [m|];
         [destruct (includes m "duplicate key")|];
         injection H as <-; discriminate. }
  destruct (negb (Password.isValid
                    (Password.validatePasswordStrength (r_password data))));
    cbn [bind try_catch] in H;
    [injection H as <-; discriminate|].
  destruct (Password.hashPassword e (r_password data)) as [h|] eqn:Hh;
    cbn [bind try_catch] in H.
  2: { destruct (Register.Error_message _) as [m|];
         [destruct (includes m "duplicate key")|];
         injection H as <-; discriminate. }
  destruct (Queries.createUser e _) as [[newUser|]|] eqn:Hc; cbn [bind try_catch] in H.
  2, 3: destruct (Register.Error_message _) as [m|];
         [destruct (includes m "duplicate key")|];
         injection H as <-; discriminate.
  unfold Session.createUserSession in H.
  destruct (Jwt.generateToken e _) as [tok|] eqn:Hg; cbn [bind try_catch] in H;
    [|injection H as <-; discriminate].
  injection H as <-.
  eexists _, newUser, tok. split; [exact Hc|]. split; [exact Hg|].
  unfold cookie_jar. cbn. rewrite insert_empty. apply map_fmap_singleton.
Qed.

(** What a 200 response of the login route tells. *)
Lemma login_200_inv (d : Login.Deps) (e : Env) (request : NextRequest)
  (response : NextResponse) :
  Login.POST d e request = Ret response ->
  status response = 200 ->
  exists data user tok body,
    req_json request = Ret body /\
    Login.loginSchema_safeParse d body = Login.LoginSuccess data /\
    Queries.getUserByEmail e (Login.l_email data) = Ret (Some user) /\
    Login.bcrypt_compare d (Login.l_password data) (password user)
      = Ret true /\
    Jwt.generateToken e
      {| c_userId := id user; c_email := u_email user |} = Ret tok /\
    cookie_jar response = {[ "auth-session" := tok ]}.
Proof.
  unfold Login.POST, Login.verifyPassword. intros H Hs.
  destruct (req_json request) as [body|] eqn:Hb; cbn in H;
    [|injection H as <-; discriminate].
  destruct (Login.loginSchema_safeParse d body) as [data|] eqn:Hp;
    [|injection H as <-; discriminate].
  destruct (Queries.getUserByEmail e (Login.l_email data))
    as [[user|]|] eqn:Hu; cbn in H;
    try (injection H as <-; discriminate).
  destruct (Login.bcrypt_compare d (Login.l_password data) (password user))
    as [[|]|] eqn:Hc; cbn in H;
    try (injection H as <-; discriminate).
  unfold Session.createUserSession in H.
  destruct (Jwt.generateToken e _) as [tok|] eqn:Hg; cbn in H;
    [|injection H as <-; discriminate].
  injection H as <-.
  exists data, user, tok, body. repeat split; assumption.
Qed.

(** A token in the 'auth-session' cookie, made for a user the store
    holds, is what the session module's [getCurrentUser] resolves in a
    later request that sees the same secret and package. *)
Lemma cookie_resolves (e e' : Env) (u u' : User) (rest : list User)
  (tok : string) :
  Jsonwebtoken.verifies_what_it_signs e ->
  jwt_verify e' = jwt_verify e ->
  Jwt.JWT_SECRET e' = Jwt.JWT_SECRET e ->
  Jsonwebtoken.seconds (Date_now e') <
    Jsonwebtoken.seconds (Date_now e) + 7 * 24 * 60 * 60 ->
  Jwt.generateToken e {| c_userId := id u; c_email := u_email u |}
    = Ret tok ->
  tok <> "" ->
  cookies e' = Ret {[ "auth-session" := tok ]} ->
  select_users_where_id e' (id u) = Ret (u' :: rest) ->
  Session.getCurrentUser e' = Ret (Some u').
Proof.
  intros Hverify Hlib Hsec Hnow Hg Hne Hck Hdb.
  unfold Jwt.generateToken in Hg.
  destruct (jwt_sign e (Date_now e) _ (Jwt.JWT_SECRET e) _) as [tok'|]
    eqn:Hs; cbn in Hg; [injection Hg as ->|discriminate].
  destruct (Hverify _ (Date_now e') _ _ _ _ _ Hs eq_refl Hnow)
    as (decoded & Hdec & Hu & _).
  unfold Session.getCurrentUser, Session.getSessionToken.
  rewrite Hck. cbn [bind try_catch].
  unfold Session.SESSION_COOKIE_NAME. rewrite lookup_singleton_eq.
  destruct tok as [|c tok]; [congruence|]. cbn [truthy bind try_catch].
  unfold Session.validateSession, Jwt.verifyToken.
  rewrite Hlib, Hsec. cbn in Hdec. rewrite Hdec. cbn [bind try_catch].
  unfold Queries.getUserById. rewrite Hu. cbn [c_userId].
  rewrite Hdb. reflexivity.
Qed.

(** After a successful registration, a request that brings back the
    cookies of the 201 response is recognised by the session module:
    [getCurrentUser] returns the row the store then holds under the id
    of the user just created. *)
Theorem register_then_current_user (e e' : Env) (request : NextRequest)
  (response : NextResponse) :
  Register.POST e request = Ret response ->
  status response = 201 ->
  Jsonwebtoken.verifies_what_it_signs e ->
  nonempty_tokens e ->
  jwt_verify e' = jwt_verify e ->
  Jwt.JWT_SECRET e' = Jwt.JWT_SECRET e ->
  Jsonwebtoken.seconds (Date_now e') <
    Jsonwebtoken.seconds (Date_now e) + 7 * 24 * 60 * 60 ->
  cookies e' = Ret (cookie_jar response) ->
  exists nu newUser,
    Queries.createUser e nu = Ret (Some newUser) /\
    forall u' rest,
      select_users_where_id e' (id newUser) = Ret (u' :: rest) ->
      Session.getCurrentUser e' = Ret (Some u').
Proof.
  intros HP Hs Hverify Htok Hlib Hsec Hnow Hck.
  destruct (register_201_inv e request response HP Hs)
    as (nu & newUser & tok & Hc & Hg & Hjar).
  exists nu, newUser. split; [exact Hc|]. intros u' rest Hdb.
  apply (cookie_resolves e e' newUser u' rest tok); try assumption.
  - intros ->. unfold Jwt.generateToken in Hg.
    destruct (jwt_sign e _ _ _ _) as [t|] eqn:Hsg; cbn in Hg;
      [|discriminate].
    injection Hg as ->. exact (Htok _ _ _ _ Hsg).
  - now rewrite Hck, Hjar.
Qed.

(** Likewise after a successful login: the cookie of the 200 response
    leads [getCurrentUser] to the row held under the id of the user who
    logged in, and that user is one whose stored hash matched the
    password. *)
Theorem login_then_current_user (d : Login.Deps) (e e' : Env)
  (request : NextRequest) (response : NextResponse) :
  Login.POST d e request = Ret response ->
  status response = 200 ->
  Jsonwebtoken.verifies_what_it_signs e ->
  nonempty_tokens e ->
  jwt_verify e' = jwt_verify e ->
  Jwt.JWT_SECRET e' = Jwt.JWT_SECRET e ->
  Jsonwebtoken.seconds (Date_now e') <
    Jsonwebtoken.seconds (Date_now e) + 7 * 24 * 60 * 60 ->
  cookies e' = Ret (cookie_jar response) ->
  exists body data user,
    req_json request = Ret body /\
    Login.loginSchema_safeParse d body = Login.LoginSuccess data /\
    Queries.getUserByEmail e (Login.l_email data) = Ret (Some user) /\
    Login.bcrypt_compare d (Login.l_password data) (password user)
      = Ret true /\
    forall u' rest,
      select_users_where_id e' (id user) = Ret (u' :: rest) ->
      Session.getCurrentUser e' = Ret (Some u').
Proof.
  intros HP Hs Hverify Htok Hlib Hsec Hnow Hck.
  destruct (login_200_inv d e request response HP Hs)
    as (data & user & tok & body & Hb & Hp & Hu & Hc & Hg & Hjar).
  exists body, data, user. do 4 (split; [assumption|]).
  intros u' rest Hdb.
  apply (cookie_resolves e e' user u' rest tok); try assumption.
  - intros ->. unfold Jwt.generateToken in Hg.
    destruct (jwt_sign e _ _ _ _) as [t|] eqn:Hsg; cbn in Hg;
      [|discriminate].
    injection Hg as ->. exact (Htok _ _ _ _ Hsg).
  - now rewrite Hck, Hjar.
Qed.

Lemma sample_nonempty : nonempty_tokens Sample.world.
Proof.
  intros now claims secret options. cbn. unfold Sample.sign.
  destruct (String.length (c_userId claims)); discriminate.
Qed.

Lemma register_then_current_user_witness :
  exists response,
    Register.POST Sample.world Sample.bare_request = Ret response /\
    Session.getCurrentUser
      (with_cookies (at_time world_after_registration 1700000001000)
         (cookie_jar response))
    = Ret (Some carol).
Proof.
  eexists. split; [reflexivity|].
  match goal with
  | |- Session.getCurrentUser ?e' = _ =>
      destruct (register_then_current_user Sample.world e'
                  Sample.bare_request _
                  eq_refl eq_refl JwtFacts.sample_verifies sample_nonempty
                  eq_refl eq_refl ltac:(vm_compute; reflexivity) eq_refl)
        as (nu & newUser & Hc & Hres)
  end.
  apply (Hres carol []).
  cbn in Hc. injection Hc as <-. reflexivity.
Defined.

Lemma login_then_current_user_witness :
  exists response,
    Login.POST (login_deps "hash") Sample.world Sample.bare_request
    = Ret response /\
    Session.getCurrentUser
      (with_cookies (at_time Sample.world 1700000001000)
         (cookie_jar response))
    = Ret (Some Sample.alice).
Proof.
  eexists. split; [reflexivity|].
  match goal with
  | |- Session.getCurrentUser ?e' = _ =>
      destruct (login_then_current_user (login_deps "hash") Sample.world e'
                  Sample.bare_request _
                  eq_refl eq_refl JwtFacts.sample_verifies sample_nonempty
                  eq_refl eq_refl ltac:(vm_compute; reflexivity) eq_refl)
        as (body & data & user & Hb & Hp & Hu & _ & Hres)
  end.
  apply (Hres Sample.alice []).
  cbn in Hp. injection Hp as <-.
  cbn in Hu. injection Hu as <-. reflexivity.
Defined.

Ltac answer :=
  eexists; split; [reflexivity|]; cbn;
  repeat split; intros; try reflexivity; try lia; try congruence; auto.

Ltac run_goal :=
  repeat match goal with
         | |- context [bind ?m _] =>
             destruct m; cbn [bind try_catch]
         | |- context [if negb ?b then _ else _] =>
             destruct b; cbn [negb bind try_catch]
         | |- context [match ?m with _ => _ end] =>
             destruct m; cbn [bind try_catch]
         end.

(** The registration route never throws. It answers 201, 400, 409 or
    500, and only the 201 response carries a cookie. *)
Theorem register_answers (e : Env) (request : NextRequest) :
  exists response,
    Register.POST e request = Ret response /\
    (status response = 201 \/ status response = 400 \/
     status response = 409 \/ status response = 500) /\
    (status response <> 201 -> res_cookies response = ∅).
Proof.
  unfold Register.POST, Session.createUserSession.
  run_goal; answer.
Qed.


(** An e-mail that is already registered is answered 409 with one and
    the same body, whether the look-up finds it or, the look-up having
    found nothing, the insert fails with a duplicate-key error. *)
Theorem register_conflict (e : Env) (request : NextRequest) (body : json)
  (data : RegisterInput) :
  req_json request = Ret body ->
  registerSchema_safeParse e body = ParseSuccess data ->
  let conflict :=
    NextResponse_json
      (JObj [("error", JStr "User with this email already exists")]) 409 in
  (forall u, Queries.getUserByEmail e (r_email data) = Ret (Some u) ->
             Register.POST e request = Ret conflict) /\
  (forall h message,
      Queries.getUserByEmail e (r_email data) = Ret None ->
      Password.isValid (Password.validatePasswordStrength (r_password data))
        = true ->
      bcrypt_hash e (r_password data) 12 = Ret h ->
      insert_users_returning e
        {| n_email := r_email data; n_password := h;
           n_firstName := r_firstName data;
           n_lastName := r_lastName data |} = Throw (Error message) ->
      includes message "duplicate key" = true ->
      Register.POST e request = Ret conflict).
Proof.
  intros Hb Hp conflict. unfold Register.POST. rewrite Hb.
  cbn [bind try_catch]. rewrite Hp. split.
  - intros u ->. reflexivity.
  - intros h message -> -> Hh Hi Hm.
    cbn [negb bind try_catch]. unfold Password.hashPassword.
    rewrite Hh. cbn [bind try_catch]. unfold Queries.createUser.
    rewrite Hi. cbn [bind try_catch Register.Error_message].
    now rewrite Hm.
Qed.

Lemma register_conflict_witness :
  Register.POST
    (with_insert Sample.world
       (fun _ => Throw (Error "duplicate key value violates unique constraint")))
    Sample.bare_request
  = Ret (NextResponse_json
           (JObj [("error", JStr "User with this email already exists")])
           409).
Proof.
  refine (proj2 (register_conflict
                   (with_insert Sample.world
                      (fun _ => Throw (Error "duplicate key value violates unique constraint")))
                   Sample.bare_request JNull _ eq_refl eq_refl)
            _ _ eq_refl _ eq_refl eq_refl _);
    vm_compute; reflexivity.
Defined.

End RouteFacts.

(** ** More on the rate limiter *)

Module RateLimitMoreFacts.
Import RateLimit Vocabulary RateLimitFacts.

Lemma five_per_window_witness :
  exists vs store',
    calls_at authRateLimiter "Mozilla/5.0" [0; 10; 20; 30; 40; 50; 60] ∅
    = (vs, store') /\
    (forall (i : nat) v, vs !! i = Some v ->
       allowed v = bool_decide (i < 5)%nat /\
       (allowed v = false -> remaining v = Number 0)) /\
    store' !! "Mozilla/5.0" =
      Some {| count := Z.min (1 + Z.of_nat 6) 5;
              resetTime := 0 + windowMs authRateLimiter |} /\
    (forall t', t' > 0 + windowMs authRateLimiter ->
       isAllowed authRateLimiter t' "Mozilla/5.0" store' =
         ({| allowed := true;
             remaining := Number 4;
             v_resetTime := Number (t' + windowMs authRateLimiter) |},
          <["Mozilla/5.0" := {| count := 1;
                               resetTime := t' + windowMs authRateLimiter |}]>
            store')).
Proof.
  apply (five_per_window authRateLimiter "Mozilla/5.0" ∅ 0
           [10; 20; 30; 40; 50; 60]).
  - reflexivity.
  - reflexivity.
  - left. reflexivity.
  - repeat constructor; vm_compute; discriminate.
Defined.

(** An expired entry under a name that Object.prototype also has: the
    entry is dropped and the inherited member is what is found next. *)
Lemma isAllowed_expired_inherited (config : RateLimitConfig) (now : Z)
  (identifier : string) (store : gmap string Entry) (r : Entry) :
  store !! identifier = Some r ->
  now > resetTime r ->
  inherited identifier = true ->
  isAllowed config now identifier store =
    ({| allowed := true; remaining := NaN; v_resetTime := Undefined |},
     delete identifier store).
Proof.
  intros Hr Hn Hi. unfold isAllowed. cbv zeta.
  rewrite (get_own _ _ _ Hr). cbv iota.
  replace (now >? resetTime r) with true by lia.
  rewrite (get_inherited _ _ (lookup_delete_eq _ _) Hi). reflexivity.
Qed.

(** The verdict for an identifier depends on the store only through the
    entry of that identifier. *)
Lemma verdict_depends_on_entry (config : RateLimitConfig) (now : Z)
  (k : string) (s1 s2 : gmap string Entry) :
  s1 !! k = s2 !! k ->
  fst (isAllowed config now k s1) = fst (isAllowed config now k s2) /\
  snd (isAllowed config now k s1) !! k = snd (isAllowed config now k s2) !! k.
Proof.
  intros H.
  destruct (isAllowed_cases config now k s1)
    as [[Hn Hi] | [[Hn Hi] | (r & Hr & [Hexp | [Hin [Hc | Hc]]])]].
  - rewrite (isAllowed_fresh config now k s1),
      (isAllowed_fresh config now k s2) by congruence.
    cbn. now rewrite !lookup_insert_eq.
  - rewrite (isAllowed_inherited config now k s1),
      (isAllowed_inherited config now k s2) by congruence.
    cbn. auto.
  - destruct (inherited k) eqn:Hi.
    + rewrite (isAllowed_expired_inherited config now k s1 r),
        (isAllowed_expired_inherited config now k s2 r) by congruence.
      cbn. now rewrite !lookup_delete_eq.
    + rewrite (isAllowed_expired config now k s1 r),
        (isAllowed_expired config now k s2 r) by congruence.
      cbn. now rewrite !lookup_insert_eq.
  - rewrite (isAllowed_under config now k s1 r),
      (isAllowed_under config now k s2 r) by congruence.
    cbn. now rewrite !lookup_insert_eq.
  - rewrite (isAllowed_over config now k s1 r),
      (isAllowed_over config now k s2 r) by congruence.
    cbn. auto.
Qed.

Lemma isAllowed_other_entry (config : RateLimitConfig) (now : Z)
  (identifier k : string) (store : gmap string Entry) :
  k <> identifier ->
  snd (isAllowed config now identifier store) !! k = store !! k.
Proof.
  intros Hk.
  destruct (isAllowed_cases config now identifier store)
    as [[Hn Hi] | [[Hn Hi] | (r & Hr & [Hexp | [Hin [Hc | Hc]]])]].
  - rewrite isAllowed_fresh by assumption. cbn.
    now rewrite lookup_insert_ne by congruence.
  - now rewrite isAllowed_inherited by assumption.
  - destruct (inherited identifier) eqn:Hi.
    + rewrite (isAllowed_expired_inherited config now identifier store r)
        by assumption.
      cbn. now rewrite lookup_delete_ne by congruence.
    + rewrite (isAllowed_expired config now identifier store r)
        by assumption.
      cbn. now rewrite lookup_insert_ne by congruence.
  - rewrite (isAllowed_under config now identifier store r) by assumption.
    cbn. now rewrite lookup_insert_ne by congruence.
  - now rewrite (isAllowed_over config now identifier store r)
      by assumption.
Qed.

(** Clients do not interfere: a call for one identifier leaves the
    entry of every other identifier as it was, and so does not change
    the verdict that other identifier gets next. *)
Theorem isAllowed_independent (config : RateLimitConfig) (now now' : Z)
  (identifier k : string) (store : gmap string Entry) :
  k <> identifier ->
  snd (isAllowed config now identifier store) !! k = store !! k /\
  fst (isAllowed config now' k (snd (isAllowed config now identifier store)))
  = fst (isAllowed config now' k store).
Proof.
  intros Hk.
  pose proof (isAllowed_other_entry config now identifier k store Hk) as H.
  split; [exact H|]. now apply verdict_depends_on_entry.
Qed.

Lemma isAllowed_independent_witness :
  fst (isAllowed authRateLimiter 5 "curl/8.0"
         (snd (isAllowed authRateLimiter 0 "Mozilla/5.0" ∅)))
  = fst (isAllowed authRateLimiter 5 "curl/8.0" ∅).
Proof.
  refine (proj2 (isAllowed_independent authRateLimiter 0 5
                   "Mozilla/5.0" "curl/8.0" ∅ _)).
  discriminate.
Defined.

(** [cleanup] is housekeeping only: sweeping the store at some time
    does not change the verdict, nor the entry written, of any later
    call. *)
Theorem cleanup_transparent (config : RateLimitConfig) (now now' : Z)
  (identifier : string) (store : gmap string Entry) :
  now <= now' ->
  fst (isAllowed config now' identifier (cleanup now store))
  = fst (isAllowed config now' identifier store) /\
  snd (isAllowed config now' identifier (cleanup now store)) !! identifier
  = snd (isAllowed config now' identifier store) !! identifier.
Proof.
  intros Hle.
  destruct (store !! identifier) as [r|] eqn:Hr.
  - destruct (Z_lt_le_dec (resetTime r) now) as [Hexp|Hlive].
    + assert (Hc : cleanup now store !! identifier = None).
      { destruct (cleanup now store !! identifier) as [r'|] eqn:Hc;
          [|reflexivity].
        apply cleanup_lookup in Hc as [Hc1 Hc2]. rewrite Hr in Hc1.
        injection Hc1 as <-. lia. }
      destruct (inherited identifier) eqn:Hi.
      * rewrite (isAllowed_inherited config now' identifier
                   (cleanup now store)) by assumption.
        rewrite (isAllowed_expired_inherited config now' identifier store r)
          by (assumption || lia).
        cbn. now rewrite Hc, lookup_delete_eq.
      * rewrite (isAllowed_fresh config now' identifier
                   (cleanup now store)) by assumption.
        rewrite (isAllowed_expired config now' identifier store r)
          by (assumption || lia).
        cbn. now rewrite !lookup_insert_eq.
    + apply verdict_depends_on_entry. rewrite Hr.
      apply cleanup_lookup. split; [exact Hr | lia].
  - apply verdict_depends_on_entry. rewrite Hr.
    destruct (cleanup now store !! identifier) as [r'|] eqn:Hc;
      [|reflexivity].
    apply cleanup_lookup in Hc as [Hc1 _]. congruence.
Qed.

Lemma cleanup_transparent_witness :
  fst (isAllowed authRateLimiter 900005 "Mozilla/5.0"
         (cleanup 900001 (snd (isAllowed authRateLimiter 0 "Mozilla/5.0" ∅))))
  = fst (isAllowed authRateLimiter 900005 "Mozilla/5.0"
           (snd (isAllowed authRateLimiter 0 "Mozilla/5.0" ∅))).
Proof.
  refine (proj1 (cleanup_transparent authRateLimiter 900001 900005
                   "Mozilla/5.0" _ _)).
  vm_compute. discriminate.
Defined.

(** The middleware throws 'Rate limit exceeded' exactly when the call is
    not allowed, which happens only on an entry that is at the limit
    and not yet expired; the store is then left as it was. *)
Theorem rateLimitMiddleware_spec (config : RateLimitConfig) (now : Z)
  (identifier : string) (store : gmap string Entry) :
  (exists v store',
      rateLimitMiddleware config now identifier store = (Ret v, store') /\
      isAllowed config now identifier store = (v, store') /\
      allowed v = true) \/
  (rateLimitMiddleware config now identifier store
   = (Throw (Error "Rate limit exceeded"), store) /\
   exists r, store !! identifier = Some r /\
             maxRequests config <= count r /\ now <= resetTime r).
Proof.
  unfold rateLimitMiddleware.
  destruct (isAllowed_cases config now identifier store)
    as [[Hn Hi] | [[Hn Hi] | (r & Hr & [Hexp | [Hin [Hc | Hc]]])]].
  - rewrite isAllowed_fresh by assumption. left. eauto.
  - rewrite isAllowed_inherited by assumption. left. eauto.
  - left. destruct (inherited identifier) eqn:Hi.
    + rewrite (isAllowed_expired_inherited config now identifier store r)
        by assumption. eauto.
    + rewrite (isAllowed_expired config now identifier store r)
        by assumption. eauto.
  - rewrite (isAllowed_under config now identifier store r) by assumption.
    left. eauto.
  - rewrite (isAllowed_over config now identifier store r) by assumption.
    right. cbn. split; [reflexivity|]. eauto.
Qed.

Lemma join_cons_char (c : ascii) (h : string) (t : list string) :
  join_space (String c h :: t) = String c (join_space (h :: t)).
Proof. destruct t; reflexivity. Qed.

Lemma split_space_nonempty (s : string) : split_space s <> [].
Proof.
  induction s as [|c s IH]; cbn; [discriminate|].
  destruct (Ascii.eqb c " "); [discriminate|].
  destruct (split_space s); discriminate.
Qed.

(** Splitting at the spaces and joining with spaces gives the string
    back. *)
Lemma join_split (s : string) : join_space (split_space s) = s.
Proof.
  induction s as [|c s IH]; [reflexivity|]. cbn [split_space].
  destruct (Ascii.eqb_spec c " ") as [->|Hc].
  - pose proof (split_space_nonempty s) as Hne.
    destruct (split_space s) as [|h t] eqn:Hs; [congruence|].
    cbn [join_space]. now rewrite <- IH.
  - pose proof (split_space_nonempty s) as Hne.
    destruct (split_space s) as [|h t] eqn:Hs; [congruence|].
    rewrite join_cons_char. now rewrite IH.
Qed.

Lemma append_assoc3 (a b c : string) : (a ++ b) ++ c = a ++ (b ++ c).
Proof.
  induction a as [|x a IH]; [reflexivity|].
  change (String x ((a ++ b) ++ c) = String x (a ++ b ++ c)).
  now rewrite IH.
Qed.

Lemma join_firstn_prefix (n : nat) :
  forall l, exists rest, join_space l = join_space (firstn n l) ++ rest.
Proof.
  induction n as [|n IH]; intros l.
  - exists (join_space l). reflexivity.
  - destruct l as [|x l]; [exists ""; reflexivity|].
    cbn [firstn]. destruct (IH l) as [rest Hrest].
    destruct l as [|y l].
    + exists "". rewrite firstn_nil. cbn [join_space].
      clear. induction x as [|c x IHx]; [reflexivity|].
      change (String c x = String c (x ++ "")). now rewrite <- IHx.
    + change (join_space (x :: y :: l))
        with (x ++ " " ++ join_space (y :: l)).
      rewrite Hrest.
      destruct (firstn n (y :: l)) as [|z l'] eqn:Hf.
      * exists (" " ++ rest). reflexivity.
      * change (join_space (x :: z :: l'))
          with (x ++ " " ++ join_space (z :: l')).
        exists rest. rewrite append_assoc3. reflexivity.
Qed.

(** The client identifier is the part of the User-Agent header up to
    its third space (the whole header when it has fewer), hence a prefix
    of it; a request without the header is identified as 'unknown'. *)
Theorem getClientIdentifier_prefix (request : NextRequest) :
  (forall ua, truthy (req_headers request !! "user-agent") = Some ua ->
     getClientIdentifier request = join_space (firstn 3 (split_space ua)) /\
     exists rest, ua = getClientIdentifier request ++ rest) /\
  (truthy (req_headers request !! "user-agent") = None ->
   getClientIdentifier request = "unknown").
Proof.
  unfold getClientIdentifier. split.
  - intros ua ->. split; [reflexivity|].
    destruct (join_firstn_prefix 3 (split_space ua)) as [rest H].
    exists rest. now rewrite <- H, join_split.
  - intros ->. reflexivity.
Qed.

End RateLimitMoreFacts.

(** ** The password checks of security.ts and of the validation module *)

Module PasswordCheckFacts.
Import Password Security.

(** The outcome of five checks and the common-password test, whatever
    the messages. *)
Lemma checks_outcome (b1 b2 b3 b4 b5 common : bool)
  (m1 m2 m3 m4 m5 m6 : string) :
  let st := check b5 m5 (check b4 m4 (check b3 m3 (check b2 m2
              (check b1 m1 (0, []))))) in
  let st' := if common then (fst st - 2, (snd st ++ [m6])%list) else st in
  let failed :=
    List.length (List.filter negb [b1; b2; b3; b4; b5]) in
  fst st' = 5 - Z.of_nat failed - (if common then 2 else 0) /\
  List.length (snd st') = (failed + if common then 1 else 0)%nat.
Proof.
  destruct b1, b2, b3, b4, b5, common; cbn; split; reflexivity.
Qed.

(** [validatePasswordSecurity] accepts a password exactly when it is
    not (ignoring case) one of the ten listed passwords and at most one
    of its five rules fails, that is, when it has at most one message
    of feedback and none about being common; so a listed password is
    never accepted, and an accepted one may still have a message. The
    score reported lies between 0 and 5. *)
Theorem validatePasswordSecurity_spec (password : string) :
  let r := validatePasswordSecurity password in
  let common := array_includes commonPasswords (toLowerCase password) in
  (ps_isValid r = true <->
   common = false /\ (List.length (feedback r) <= 1)%nat) /\
  (common = true -> ps_isValid r = false) /\
  0 <= score r <= 5.
Proof.
  cbv zeta. unfold validatePasswordSecurity.
  set (b1 := (8 <=? String.length password)%nat).
  set (b2 := test_class upper password).
  set (b3 := test_class lower password).
  set (b4 := test_class digit password).
  set (b5 := test_class special password).
  set (common := array_includes commonPasswords (toLowerCase password)).
  cbn [ps_isValid score feedback].
  destruct (checks_outcome b1 b2 b3 b4 b5 common
              "Password must be at least 8 characters long"
              "Password must contain at least one uppercase letter"
              "Password must contain at least one lowercase letter"
              "Password must contain at least one number"
              "Password must contain at least one special character"
              "Password is too common") as [Hs Hf].
  cbv zeta in Hs, Hf. rewrite Hs, Hf.
  set (failed := List.length (List.filter negb [b1; b2; b3; b4; b5])).
  assert (Hfail : (failed <= 5)%nat).
  { subst failed. destruct b1, b2, b3, b4, b5; cbn; lia. }
  destruct common; split; [| split | | split];
    try (split; [intros H | intros [H1 H2]]); try lia; try discriminate;
    try (intros; lia).
Qed.

Lemma special_toLowerCase_unit (c : ascii) :
  special (toLowerCase_unit c) = special c.
Proof.
  destruct c as [[] [] [] [] [] [] [] []]; vm_compute; reflexivity.
Qed.

Lemma special_toLowerCase (s : string) :
  test_class special (toLowerCase s) = test_class special s.
Proof.
  induction s as [|c s IH]; [reflexivity|].
  cbn [toLowerCase test_class]. now rewrite special_toLowerCase_unit, IH.
Qed.

Lemma common_has_no_special (q : string) :
  array_includes commonPasswords q = true -> test_class special q = false.
Proof.
  unfold array_includes, commonPasswords. cbn [existsb].
  rewrite !orb_true_iff, !String.eqb_eq.
  intros H. decompose [or] H; subst; try reflexivity. discriminate.
Qed.

(** Whatever [validatePasswordStrength] accepts,
    [validatePasswordSecurity] accepts too, with the full score of 5
    and no feedback: the stricter validator implies the laxer one. *)
Theorem strength_implies_security (password : string) :
  isValid (validatePasswordStrength password) = true ->
  validatePasswordSecurity password =
    {| ps_isValid := true; score := 5; feedback := [] |}.
Proof.
  intros H.
  apply PasswordFacts.isValid_iff_no_rule_fails in H.
  unfold Vocabulary.rules in H.
  apply PasswordStrengthFacts.failing_nil_iff in H
    as (H1 & _ & H3 & H4 & H5 & H6 & _).
  apply negb_false_iff in H3, H4, H5, H6.
  unfold validatePasswordSecurity.
  replace (8 <=? String.length password)%nat with true
    by (symmetry; apply Nat.leb_le; lia).
  rewrite H3, H4, H5, H6.
  assert (Hc : array_includes commonPasswords (toLowerCase password)
               = false).
  { destruct (array_includes commonPasswords (toLowerCase password)) eqn:Hc;
      [|reflexivity].
    apply common_has_no_special in Hc.
    rewrite special_toLowerCase in Hc. congruence. }
  rewrite Hc. reflexivity.
Qed.

Lemma strength_implies_security_witness :
  validatePasswordSecurity "Tr0ub4dor&3!" =
    {| ps_isValid := true; score := 5; feedback := [] |}.
Proof.
  apply strength_implies_security. vm_compute. reflexivity.
Defined.

Lemma startsWith_refl (s : string) : startsWith s s = true.
Proof.
  induction s as [|c s IH]; [reflexivity|].
  cbn. now rewrite Ascii.eqb_refl, IH.
Qed.

Lemma includes_refl (s : string) : includes s s = true.
Proof. destruct s; cbn; [reflexivity|]. now rewrite Ascii.eqb_refl,
  startsWith_refl. Qed.

(** A password that [validatePasswordSecurity] calls too common is one
    that [checkPasswordCommonPatterns] reports as insecure, its first
    warning being the one about common words. *)
Theorem common_is_insecure (password : string) :
  array_includes commonPasswords (toLowerCase password) = true ->
  In "Password is too common"
     (feedback (validatePasswordSecurity password)) /\
  Validation.isSecure (Validation.checkPasswordCommonPatterns password)
    = false /\
  head (Validation.warnings
          (Validation.checkPasswordCommonPatterns password))
    = Some "Password contains common words or patterns".
Proof.
  intros H. split; [|].
  - unfold validatePasswordSecurity. rewrite H. cbn [feedback snd].
    apply in_or_app. right. left. reflexivity.
  - assert (Hc : existsb (includes (toLowerCase password))
                   Validation.commonPasswords = true).
    { unfold array_includes in H. apply existsb_exists in H as (x & Hx & He).
      apply String.eqb_eq in He. subst x.
      apply existsb_exists. exists (toLowerCase password).
      split; [exact Hx | apply includes_refl]. }
    unfold Validation.checkPasswordCommonPatterns. rewrite Hc.
    generalize (existsb (includes (toLowerCase password))
                  Validation.keyboardPatterns),
               (repeated password),
               (Regex.matches Validation.lettersRegex password
                && (String.length password <? 12)%nat).
    intros b1 b2 b3. destruct b1, b2, b3; split; reflexivity.
Qed.

Lemma common_is_insecure_witness :
  Validation.isSecure (Validation.checkPasswordCommonPatterns "PassWord")
  = false.
Proof.
  refine (proj1 (proj2 (common_is_insecure "PassWord" _))).
  vm_compute. reflexivity.
Defined.

End PasswordCheckFacts.

(** ** Input sanitising, tokens and request checks of security.ts *)

Module SecurityFacts.
Import Password Security Alphabet.

(** Dropping characters cannot bring in a character of a class that was
    absent. *)
Lemma trimStart_keeps_out (cls : ascii -> bool) (s : string) :
  test_class cls s = false -> test_class cls (trimStart s) = false.
Proof.
  induction s as [|c s IH]; [reflexivity|]. cbn [trimStart].
  destruct (Regex.whitespace c); [|tauto].
  cbn [test_class]. intros [_ H]%orb_false_iff. auto.
Qed.

Lemma trimEnd_keeps_out (cls : ascii -> bool) (s : string) :
  test_class cls s = false -> test_class cls (trimEnd s) = false.
Proof.
  induction s as [|c s IH]; [reflexivity|]. cbn [trimEnd test_class].
  intros [Hc H]%orb_false_iff. specialize (IH H).
  destruct (trimEnd s) as [|d r].
  - destruct (Regex.whitespace c); [reflexivity|].
    cbn. now rewrite Hc.
  - cbn [test_class] in *. now rewrite Hc.
Qed.

Lemma trim_keeps_out (cls : ascii -> bool) (s : string) :
  test_class cls s = false -> test_class cls (trim s) = false.
Proof.
  intros H. unfold trim. now apply trimEnd_keeps_out, trimStart_keeps_out.
Qed.

Lemma remove_matches_keeps_out (cls : ascii -> bool)
  (f : string -> option nat) (s : string) :
  forall skip, test_class cls s = false ->
               test_class cls (remove_matches f skip s) = false.
Proof.
  induction s as [|c s IH]; intros skip; [reflexivity|].
  cbn [test_class]. intros [Hc H]%orb_false_iff.
  cbn [remove_matches]. destruct skip as [|k]; [|now apply IH].
  destruct (f (String c s)) as [[|k]|]; cbn [test_class];
    rewrite ?Hc; now apply IH.
Qed.

Lemma remove_class_removes (cls : ascii -> bool) (s : string) :
  test_class cls (remove_class cls s) = false.
Proof.
  induction s as [|c s IH]; [reflexivity|]. cbn [remove_class].
  destruct (cls c) eqn:Hc; [exact IH|]. cbn [test_class].
  now rewrite Hc, IH.
Qed.

Lemma length_trimStart (s : string) :
  (String.length (trimStart s) <= String.length s)%nat.
Proof.
  induction s as [|c s IH]; cbn [trimStart]; [lia|].
  destruct (Regex.whitespace c); cbn [String.length]; lia.
Qed.

Lemma length_trimEnd (s : string) :
  (String.length (trimEnd s) <= String.length s)%nat.
Proof.
  induction s as [|c s IH]; cbn [trimEnd]; [lia|].
  destruct (trimEnd s) as [|d r].
  - destruct (Regex.whitespace c); cbn [String.length]; lia.
  - cbn [String.length] in *. lia.
Qed.

Lemma length_remove_class (cls : ascii -> bool) (s : string) :
  (String.length (remove_class cls s) <= String.length s)%nat.
Proof.
  induction s as [|c s IH]; cbn [remove_class]; [lia|].
  destruct (cls c); cbn [String.length]; lia.
Qed.

Lemma length_remove_matches (f : string -> option nat) (s : string) :
  forall skip,
    (String.length (remove_matches f skip s) <= String.length s)%nat.
Proof.
  induction s as [|c s IH]; intros skip; cbn [remove_matches]; [lia|].
  destruct skip as [|k].
  - destruct (f (String c s)) as [[|k]|]; cbn [String.length];
      try (specialize (IH O); lia).
    specialize (IH k). lia.
  - cbn [String.length]. specialize (IH k). lia.
Qed.

(** Neither [sanitizeInput] (the one of security.ts, which trims first,
    and the one of the validation module, which trims last) ever
    returns a string with an angle bracket in it, and neither returns a
    string longer than its input. *)
Theorem sanitizeInput_no_angle_brackets (input : string) :
  test_class angle (sanitizeInput input) = false /\
  test_class angle (Validation.sanitizeInput input) = false /\
  (String.length (sanitizeInput input) <= String.length input)%nat /\
  (String.length (Validation.sanitizeInput input)
   <= String.length input)%nat.
Proof.
  unfold sanitizeInput, Validation.sanitizeInput, trim.
  repeat split.
  - do 2 apply remove_matches_keeps_out. apply remove_class_removes.
  - apply trimEnd_keeps_out, trimStart_keeps_out.
    do 2 apply remove_matches_keeps_out. apply remove_class_removes.
  - etransitivity; [apply length_remove_matches|].
    etransitivity; [apply length_remove_matches|].
    etransitivity; [apply length_remove_class|].
    etransitivity; [apply length_trimEnd|]. apply length_trimStart.
  - etransitivity; [apply length_trimEnd|].
    etransitivity; [apply length_trimStart|].
    etransitivity; [apply length_remove_matches|].
    etransitivity; [apply length_remove_matches|].
    apply length_remove_class.
Qed.

Example sanitizeInput_examples :
  sanitizeInput "  <a href=javascript:alert(1) onclick=go()>x</a> "
  = "a href=alert(1) go()x/a" /\
  sanitizeInput "JaVaScRiPt:ONLOAD=x" = "x" /\
  sanitizeInput "on=1 one=2 a_on9_=3" = "on=1 2 a_3".
Proof. repeat split; vm_compute; reflexivity. Qed.

Lemma chars_get (i : nat) :
  (i < 62)%nat ->
  exists c, String.get i chars = Some c /\ alphanumeric c = true.
Proof.
  intros Hi.
  do 62 (destruct i as [|i]; [eexists; split; reflexivity|]). lia.
Qed.

(** A token has one character per random byte, each of them a letter or
    a digit: the index into the 62-character alphabet is never out of
    range. *)
Theorem generateSecureToken_shape (randomArray : list N) :
  String.length (generateSecureToken randomArray)
  = List.length randomArray /\
  test_class (fun c => negb (alphanumeric c))
    (generateSecureToken randomArray) = false.
Proof.
  induction randomArray as [|b rest [IHl IHc]]; [split; reflexivity|].
  cbn [generateSecureToken List.length].
  destruct (chars_get (N.to_nat (b mod N.of_nat (String.length chars))))
    as (c & Hg & Hc).
  { change (N.of_nat (String.length chars)) with 62%N.
    pose proof (N.mod_lt b 62). lia. }
  unfold charAt. rewrite Hg.
  change (String c "" ++ generateSecureToken rest)
    with (String c (generateSecureToken rest)).
  cbn [String.length test_class]. split; [now rewrite IHl|].
  now rewrite Hc, IHc.
Qed.

(** A CSRF token is good for one use: [validateToken] accepts a token
    exactly when it is among the live ones and removes it, so
    validating it again fails; other tokens are untouched. A token just
    generated is accepted. *)
Theorem csrf_one_time_use (token : string) (tokens : gset string) :
  let '(ok, tokens') := csrf_validateToken token tokens in
  (ok = true <-> token ∈ tokens) /\
  csrf_validateToken token tokens' = (false, tokens') /\
  (forall other, other <> token -> other ∈ tokens' <-> other ∈ tokens) /\
  (forall randomArray,
      let '(t, live) := csrf_generateToken randomArray tokens in
      fst (csrf_validateToken t live) = true).
Proof.
  unfold csrf_validateToken, csrf_generateToken.
  assert (Hgen : forall randomArray : list N,
             bool_decide
               (generateSecureToken randomArray
                ∈ ({[generateSecureToken randomArray]} ∪ tokens
                   : gset string)) = true).
  { intros randomArray. apply bool_decide_eq_true_2. set_solver. }
  destruct (decide (token ∈ tokens)) as [Hin|Hout].
  - rewrite (bool_decide_eq_true_2 _ Hin).
    split; [tauto|]. split; [|split].
    + rewrite bool_decide_eq_false_2 by set_solver. reflexivity.
    + intros other Ho. set_solver.
    + intros randomArray. cbn. apply Hgen.
  - rewrite (bool_decide_eq_false_2 _ Hout).
    split; [split; [discriminate | contradiction]|]. split; [|split].
    + rewrite (bool_decide_eq_false_2 _ Hout). reflexivity.
    + intros other Ho. reflexivity.
    + intros randomArray. cbn. apply Hgen.
Qed.

Lemma fold_suspicious (request : NextRequest) (errors : list string) :
  let flagged h :=
    match truthy (req_headers request !! h) with
    | Some _ => true
    | None => false
    end in
  List.length
    (fold_left
       (fun errors header =>
          match truthy (req_headers request !! header) with
          | Some _ =>
              (errors ++
               [String.append "Suspicious header detected: " header])%list
          | None => errors
          end)
       suspiciousHeaders errors)
  = (List.length errors
     + List.length (List.filter flagged suspiciousHeaders))%nat.
Proof.
  cbv zeta. unfold suspiciousHeaders. cbn [fold_left List.filter].
  repeat match goal with
         | |- context [truthy ?x] => destruct (truthy x)
         end; rewrite ?length_app; cbn [List.length]; lia.
Qed.

(** A request is valid exactly when it carries none of the three
    forwarding headers with a non-empty value and, if it is a POST,
    declares a content type that contains 'application/json'. In
    particular every request that comes with X-Forwarded-For is
    invalid. *)
Theorem validateRequest_spec (method : string) (request : NextRequest) :
  rv_isValid (validateRequest method request) = true <->
  (forall h, In h suspiciousHeaders ->
             truthy (req_headers request !! h) = None) /\
  (method = "POST" ->
   exists contentType,
     truthy (req_headers request !! "content-type") = Some contentType /\
     includes contentType "application/json" = true).
Proof.
  unfold validateRequest. cbn [rv_isValid].
  rewrite Nat.eqb_eq, fold_suspicious.
  unfold suspiciousHeaders. cbn [List.filter In].
  destruct (String.eqb_spec method "POST") as [->|Hm].
  - destruct (truthy (req_headers request !! "content-type")) as [ct|].
    + destruct (includes ct "application/json") eqn:Hct;
        destruct (truthy (req_headers request !! "x-forwarded-for")) eqn:H1;
        destruct (truthy (req_headers request !! "x-real-ip")) eqn:H2;
        destruct (truthy (req_headers request !! "x-forwarded-host")) eqn:H3;
        cbn [List.length]; split;
        try (intros H; exfalso; cbn in H; lia);
        try (intros [Hh Hc];
             first [ specialize (Hh _ (or_introl eq_refl)); congruence
                   | specialize (Hh _ (or_intror (or_introl eq_refl)));
                     congruence
                   | specialize (Hh _ (or_intror (or_intror
                                                    (or_introl eq_refl))));
                     congruence
                   | destruct (Hc eq_refl) as (x & [= <-] & Hx); congruence
                   | reflexivity ]).
      intros _. split.
      * intros h [<- | [<- | [<- | []]]]; assumption.
      * intros _. eauto.
    + split.
      * intros H. exfalso. rewrite ?length_app in H. cbn in H. lia.
      * intros [_ Hc]. destruct (Hc eq_refl) as (x & [=] & _).
  - destruct (truthy (req_headers request !! "x-forwarded-for")) eqn:H1;
      destruct (truthy (req_headers request !! "x-real-ip")) eqn:H2;
      destruct (truthy (req_headers request !! "x-forwarded-host")) eqn:H3;
      cbn [List.length]; split;
      try (intros H; exfalso; cbn in H; lia);
      try (intros [Hh Hc];
           first [ specialize (Hh _ (or_introl eq_refl)); congruence
                 | specialize (Hh _ (or_intror (or_introl eq_refl)));
                   congruence
                 | specialize (Hh _ (or_intror (or_intror
                                                  (or_introl eq_refl))));
                   congruence
                 | reflexivity ]).
    intros _. split.
    + intros h [<- | [<- | [<- | []]]]; assumption.
    + intros Hp. congruence.
Qed.

End SecurityFacts.

(** ** The e-mail pattern *)

Module RegexFacts.
Import Regex Security.

Lemma append_nil_inv (s1 s2 : string) : s1 ++ s2 = "" -> s1 = "" /\ s2 = "".
Proof. destruct s1; [auto | discriminate]. Qed.

Lemma Matches_nil_nullable (r : re) (s : string) :
  Matches r s -> s = "" -> nullable r = true.
Proof.
  induction 1 as [ | p c Hp | r1 r2 s1 s2 H1 IH1 H2 IH2 | r1 r2 s H IH
                 | r1 r2 s H IH | r | r s1 s2 H1 IH1 H2 IH2 ];
    intros Hs; cbn [nullable]; try reflexivity; try discriminate.
  - apply append_nil_inv in Hs as [-> ->]. now rewrite IH1, IH2.
  - now rewrite IH.
  - rewrite IH by assumption. apply orb_true_r.
Qed.

Lemma nullable_Matches (r : re) : nullable r = true -> Matches r "".
Proof.
  induction r as [ | | p | r1 IH1 r2 IH2 | r1 IH1 r2 IH2 | r IH ];
    cbn [nullable]; intros H; try discriminate.
  - constructor.
  - apply andb_true_iff in H as [H1 H2].
    change "" with ("" ++ ""). constructor; auto.
  - apply orb_true_iff in H as [H|H];
      [apply MAltL | apply MAltR]; auto.
  - constructor.
Qed.

Lemma deriv_sound (c : ascii) (r : re) :
  forall s, Matches (deriv c r) s -> Matches r (String c s).
Proof.
  induction r as [ | | p | r1 IH1 r2 IH2 | r1 IH1 r2 IH2 | r IH ];
    intros s H; cbn [deriv] in H.
  - inversion H.
  - inversion H.
  - destruct (p c) eqn:Hp; inversion H; subst. now constructor.
  - destruct (nullable r1) eqn:Hn.
    + inversion H as [ | | | ? ? ? HL | ? ? ? HR | | ]; subst.
      * inversion HL as [ | | ? ? s1 s2 Ha Hb | | | | ]; subst.
        change (String c (s1 ++ s2)) with (String c s1 ++ s2).
        constructor; auto.
      * change (String c s) with ("" ++ String c s).
        constructor; [now apply nullable_Matches | auto].
    + inversion H as [ | | ? ? s1 s2 Ha Hb | | | | ]; subst.
      change (String c (s1 ++ s2)) with (String c s1 ++ s2).
      constructor; auto.
  - inversion H; subst; [apply MAltL | apply MAltR]; auto.
  - inversion H as [ | | ? ? s1 s2 Ha Hb | | | | ]; subst.
    change (String c (s1 ++ s2)) with (String c s1 ++ s2).
    constructor; auto.
Qed.

Lemma deriv_complete (c : ascii) (r : re) (s' : string) :
  Matches r s' -> forall s, s' = String c s -> Matches (deriv c r) s.
Proof.
  induction 1 as [ | p c0 Hp | r1 r2 s1 s2 H1 IH1 H2 IH2 | r1 r2 s0 H IH
                 | r1 r2 s0 H IH | r | r s1 s2 H1 IH1 H2 IH2 ];
    intros s Hs; cbn [deriv]; try discriminate.
  - injection Hs as -> <-. rewrite Hp. constructor.
  - destruct s1 as [|d s1].
    + cbn in Hs. rewrite (Matches_nil_nullable r1 "" H1 eq_refl).
      apply MAltR. auto.
    + injection Hs as -> <-.
      assert (Hm : Matches (Cat (deriv c r1) r2) (s1 ++ s2))
        by (constructor; auto).
      destruct (nullable r1); [apply MAltL|]; exact Hm.
  - apply MAltL. auto.
  - apply MAltR. auto.
  - destruct s1 as [|d s1].
    + cbn in Hs. specialize (IH2 s Hs). exact IH2.
    + injection Hs as -> <-. constructor; auto.
Qed.

(** The derivative matcher decides the language of the pattern. *)
Lemma matches_correct (s : string) :
  forall r, matches r s = true <-> Matches r s.
Proof.
  induction s as [|c s IH]; intros r; cbn [matches].
  - split; [apply nullable_Matches|].
    intros H. exact (Matches_nil_nullable r "" H eq_refl).
  - rewrite IH. split; [apply deriv_sound|].
    intros H. exact (deriv_complete c r _ H s eq_refl).
Qed.

Lemma Cat_inv (r1 r2 : re) (s : string) :
  Matches (Cat r1 r2) s ->
  exists s1 s2, s = s1 ++ s2 /\ Matches r1 s1 /\ Matches r2 s2.
Proof. inversion 1; subst; eauto. Qed.

Lemma Cls_inv (p : ascii -> bool) (s : string) :
  Matches (Cls p) s -> exists c, s = String c "" /\ p c = true.
Proof. inversion 1; subst; eauto. Qed.

Lemma Star_Cls_all (p : ascii -> bool) (r : re) (s : string) :
  Matches r s -> r = Star (Cls p) ->
  Password.test_class (fun c => negb (p c)) s = false.
Proof.
  induction 1 as [ | | | | | r0 | r0 s1 s2 H1 _ H2 IH2 ];
    intros Hr; try discriminate; [reflexivity|].
  injection Hr as ->. apply Cls_inv in H1 as (c & -> & Hp).
  change (String c "" ++ s2) with (String c s2).
  cbn [Password.test_class]. rewrite Hp. cbn [negb orb]. auto.
Qed.

Lemma all_Star_Cls (p : ascii -> bool) (s : string) :
  Password.test_class (fun c => negb (p c)) s = false ->
  Matches (Star (Cls p)) s.
Proof.
  induction s as [|c s IH]; [constructor|].
  cbn [Password.test_class]. intros [Hc H]%orb_false_iff.
  apply negb_false_iff in Hc.
  change (String c s) with (String c "" ++ s).
  constructor; [now constructor | auto].
Qed.

(** [[...]+]: a non-empty string of characters of the class. *)
Lemma Plus_Cls (p : ascii -> bool) (s : string) :
  Matches (Plus (Cls p)) s <->
  s <> "" /\ Password.test_class (fun c => negb (p c)) s = false.
Proof.
  unfold Plus. split.
  - intros (s1 & s2 & -> & (c & -> & Hp)%Cls_inv & H2)%Cat_inv.
    change (String c "" ++ s2) with (String c s2).
    split; [discriminate|].
    cbn [Password.test_class]. rewrite Hp. cbn [negb orb].
    exact (Star_Cls_all p _ _ H2 eq_refl).
  - intros [Hne H]. destruct s as [|c s]; [congruence|].
    cbn [Password.test_class] in H. apply orb_false_iff in H as [Hc H].
    apply negb_false_iff in Hc.
    change (String c s) with (String c "" ++ s).
    constructor; [now constructor | now apply all_Star_Cls].
Qed.

(** [isValidEmail] accepts exactly the strings of the form
    local@domain.tld whose three parts are non-empty and free of white
    space and of '@' (the domain part may itself contain dots). *)
Theorem isValidEmail_shape (email : string) :
  isValidEmail email = true <->
  exists local domain tld,
    email = local ++ "@" ++ domain ++ "." ++ tld /\
    (local <> "" /\ domain <> "" /\ tld <> "") /\
    Password.test_class (fun c => negb (plain c)) local = false /\
    Password.test_class (fun c => negb (plain c)) domain = false /\
    Password.test_class (fun c => negb (plain c)) tld = false.
Proof.
  unfold isValidEmail. rewrite matches_correct. unfold emailRegex. split.
  - intros (a & s1 & -> & Ha & H1)%Cat_inv.
    apply Cat_inv in H1 as (x & s2 & -> & (c1 & -> & Hc1)%Cls_inv & H2).
    apply Cat_inv in H2 as (b & s3 & -> & Hb & H3).
    apply Cat_inv in H3 as (y & t & -> & (c2 & -> & Hc2)%Cls_inv & Ht).
    apply Plus_Cls in Ha as [Han Hap], Hb as [Hbn Hbp], Ht as [Htn Htp].
    unfold is_char in Hc1, Hc2. apply Ascii.eqb_eq in Hc1, Hc2. subst.
    exists a, b, t. auto.
  - intros (a & b & t & -> & (Han & Hbn & Htn) & Hap & Hbp & Htp).
    constructor; [apply Plus_Cls; auto|].
    change ("@" ++ b ++ "." ++ t) with (String "@" "" ++ b ++ "." ++ t).
    constructor; [constructor; reflexivity|].
    constructor; [apply Plus_Cls; auto|].
    change ("." ++ t) with (String "." "" ++ t).
    constructor; [constructor; reflexivity|].
    apply Plus_Cls; auto.
Qed.

Example isValidEmail_examples :
  isValidEmail "a@b.com" = true /\
  isValidEmail "a@b" = false /\
  isValidEmail "a b@c.de" = false /\
  isValidEmail "a@b@c.de" = false /\
  isValidEmail "a@.de" = false /\
  isValidEmail "x@y.z.w" = true.
Proof. repeat split. Qed.

End RegexFacts.
